(** * ReadTrack: the grammar score card and the analysis guard of
      [components/Analyzer.tsx], embedded and checked against the
      specification of the Hybrid Linguistic Scoring Engine. *)

From Stdlib Require Import ZArith NArith List Bool String Ascii Lia.
From Stdlib Require Import Floats.SpecFloat.
From Stdlib Require Import Sorting.Permutation.
Import ListNotations.

Set Implicit Arguments.
Local Open Scope Z_scope.

(* ===================================================================== *)
(** * The JavaScript values the component computes with *)
(* ===================================================================== *)

(** ** Numbers: IEEE 754 binary64, round to nearest even *)

Module Num.

Definition prec : Z := 53.
Definition emax : Z := 1024.

(** A JavaScript Number.  [S754_nan] is NaN, [S754_zero s] is +0 or -0. *)
Definition number : Type := spec_float.

Definition add : number -> number -> number := SFadd prec emax.
Definition sub : number -> number -> number := SFsub prec emax.
Definition mul : number -> number -> number := SFmul prec emax.
Definition div : number -> number -> number := SFdiv prec emax.

(** The Number with the value of the integer [z] (exact below 2^53,
    rounded above). *)
Definition ofZ (z : Z) : number := binary_normalize prec emax z 0 false.

(** The Number a decimal literal [n / 10^k] denotes: the binary64 value
    nearest to it.  [n] and [10^k] are exact, and the division rounds
    correctly. *)
Definition decimal (n : Z) (k : nat) : number :=
  div (ofZ n) (ofZ (10 ^ Z.of_nat k)).

Definition NaN : number := S754_nan.
Definition zero : number := S754_zero false.

Definition isNaN (x : number) : bool :=
  match x with S754_nan => true | _ => false end.

(** [x < y], [x > y], [x <= y] of the language: false when either is NaN. *)
Definition lt (x y : number) : bool := SFltb x y.
Definition gt (x y : number) : bool := SFltb y x.
Definition le (x y : number) : bool := SFleb x y.

(** [x === y] on Numbers. *)
Definition strict_eq (x y : number) : bool := SFeqb x y.

(** [Math.max(a, b)]: NaN when either is NaN, +0 above -0. *)
Definition Math_max (a b : number) : number :=
  match a, b with
  | S754_nan, _ | _, S754_nan => S754_nan
  | _, _ =>
      match SFcompare a b with
      | Some Lt => b
      | Some Gt => a
      | _ => match a with S754_zero true => b | _ => a end
      end
  end.

(** [Math.min(a, b)]: NaN when either is NaN, -0 below +0. *)
Definition Math_min (a b : number) : number :=
  match a, b with
  | S754_nan, _ | _, S754_nan => S754_nan
  | _, _ =>
      match SFcompare a b with
      | Some Lt => a
      | Some Gt => b
      | _ => match a with S754_zero false => b | _ => a end
      end
  end.

(** [Math.round(x)] for the values the card displays: the integer nearest
    to [x], halves towards +infinity.  [None] for NaN and the infinities. *)
Definition Math_round (x : number) : option Z :=
  match x with
  | S754_zero _ => Some 0
  | S754_finite s m e =>
      let v := if s then Z.neg m else Z.pos m in
      Some (match e with
            | Zneg p => (2 * v + 2 ^ Z.pos p) / (2 * 2 ^ Z.pos p)
            | _ => v * 2 ^ e
            end)
  | _ => None
  end.

(** [ToBoolean] of a Number. *)
Definition truthy (x : number) : bool :=
  match x with
  | S754_nan | S754_zero _ => false
  | _ => true
  end.

(** [x] is a zero, a finite number or an infinity of sign [s]: a number,
    not NaN, of that sign. *)
Definition signed (s : bool) (x : number) : Prop :=
  x = S754_zero s \/ (exists m e, x = S754_finite s m e)
  \/ x = S754_infinity s.

(** [x] is a finite number or the infinity of sign [s], and not a zero. *)
Definition nonzero (s : bool) (x : number) : Prop :=
  (exists m e, x = S754_finite s m e) \/ x = S754_infinity s.

End Num.

Declare Scope num_scope.
Delimit Scope num_scope with num.
Bind Scope num_scope with Num.number.
Infix "+" := Num.add : num_scope.
Infix "-" := Num.sub : num_scope.
Infix "*" := Num.mul : num_scope.
Infix "/" := Num.div : num_scope.

(** ** Strings: sequences of UTF-16 code units *)

Module Str.

Definition code_unit : Type := N.
Definition jsstring : Type := list code_unit.

(** A string literal of the source (all of them are ASCII). *)
Definition lit (s : string) : jsstring :=
  map N_of_ascii (list_ascii_of_string s).

Definition eqb (a b : jsstring) : bool :=
  if list_eq_dec N.eq_dec a b then true else false.

(** The code units [\s] matches and [trim] strips: WhiteSpace and
    LineTerminator of the language standard. *)
Definition isWhiteSpace (c : code_unit) : bool :=
  ((9 <=? c) && (c <=? 13)            (* TAB LF VT FF CR *)
   || (c =? 32)                        (* SPACE *)
   || (c =? 160)                       (* U+00A0 *)
   || (c =? 5760)                      (* U+1680 *)
   || ((8192 <=? c) && (c <=? 8202))   (* U+2000 .. U+200A *)
   || (c =? 8232) || (c =? 8233)       (* U+2028 U+2029 *)
   || (c =? 8239)                      (* U+202F *)
   || (c =? 8287)                      (* U+205F *)
   || (c =? 12288)                     (* U+3000 *)
   || (c =? 65279))%N.                 (* U+FEFF *)

Fixpoint dropWhile (p : code_unit -> bool) (s : jsstring) : jsstring :=
  match s with
  | [] => []
  | c :: s' => if p c then dropWhile p s' else s
  end.

(** [s.trim()] *)
Definition trim (s : jsstring) : jsstring :=
  rev (dropWhile isWhiteSpace (rev (dropWhile isWhiteSpace s))).

Fixpoint startsWith (s needle : jsstring) : bool :=
  match needle, s with
  | [], _ => true
  | _ :: _, [] => false
  | n :: needle', c :: s' => (n =? c)%N && startsWith s' needle'
  end.

(** [s.includes(needle)] *)
Fixpoint includes (s needle : jsstring) : bool :=
  startsWith s needle
  || match s with
     | [] => false
     | _ :: s' => includes s' needle
     end.

(** [s.split(/\s+/)]: the pieces between the maximal runs of white space.
    [cur] is the piece being read, [in_sep] tells that the previous code
    unit belonged to a separator.  A string that starts or ends with white
    space yields an empty first or last piece, and the empty string yields
    one empty piece. *)
Fixpoint split_from (in_sep : bool) (cur : jsstring) (s : jsstring)
  : list jsstring :=
  match s with
  | [] => [cur]
  | c :: s' =>
      if isWhiteSpace c
      then if in_sep then split_from true cur s'
           else cur :: split_from true [] s'
      else split_from false (cur ++ [c]) s'
  end.

Definition split_ws (s : jsstring) : list jsstring := split_from false [] s.

End Str.

Abbreviation jsstring := Str.jsstring.

(** [String.prototype.toLowerCase] belongs to the host.  The development is
    parametric in it: every theorem holds whatever it computes. *)
Class Host : Type := { toLowerCase : jsstring -> jsstring }.

(** Lower-casing of A-Z only; it agrees with the host on ASCII strings and
    serves to run the definitions on concrete inputs. *)
Definition asciiToLowerCase (s : jsstring) : jsstring :=
  map (fun c => if (65 <=? c)%N && (c <=? 90)%N then (c + 32)%N else c) s.

Definition asciiHost : Host := {| toLowerCase := asciiToLowerCase |}.

(** ** Values read out of an object, and the coercions applied to them *)

Module Val.

Inductive value : Type :=
| VUndefined
| VNumber (n : Num.number)
| VObject.          (* a function or object; none of them is a primitive *)

(** [ToBoolean] *)
Definition truthy (v : value) : bool :=
  match v with
  | VUndefined => false
  | VNumber n => Num.truthy n
  | VObject => true
  end.

(** [ToNumber].  The objects met here are the built-in functions and
    [Object.prototype]; their string forms are not numeric. *)
Definition ToNumber (v : value) : Num.number :=
  match v with
  | VUndefined => Num.NaN
  | VNumber n => n
  | VObject => Num.NaN
  end.

(** [a || b] *)
Definition or (a b : value) : value := if truthy a then a else b.

(** The names [Object.prototype] defines; every object literal inherits
    them. *)
Definition ObjectPrototype_names : list jsstring :=
  map Str.lit
    [ "constructor"; "hasOwnProperty"; "isPrototypeOf";
      "propertyIsEnumerable"; "toLocaleString"; "toString"; "valueOf";
      "__proto__"; "__defineGetter__"; "__defineSetter__";
      "__lookupGetter__"; "__lookupSetter__" ]%string.

Definition inherited (k : jsstring) : bool :=
  existsb (Str.eqb k) ObjectPrototype_names.

Fixpoint own (o : list (jsstring * Num.number)) (k : jsstring)
  : option Num.number :=
  match o with
  | [] => None
  | (k', v) :: o' => if Str.eqb k k' then Some v else own o' k
  end.

(** [o[k]] on an object literal [o] with Number-valued own properties:
    the own property, else what [Object.prototype] has under that name,
    else [undefined]. *)
Definition get (o : list (jsstring * Num.number)) (k : jsstring) : value :=
  match own o k with
  | Some v => VNumber v
  | None => if inherited k then VObject else VUndefined
  end.

End Val.

(** ** An evaluation that records its divisions

    A computation returns its value with the divisors of the divisions it
    performed, in order. *)

Module Ev.

Definition ev (A : Type) : Type := (list Num.number * A)%type.

Definition ret {A} (a : A) : ev A := ([], a).

Definition bind {A B} (m : ev A) (k : A -> ev B) : ev B :=
  let '(l1, a) := m in
  let '(l2, b) := k a in
  (l1 ++ l2, b).

(** [x / y], recorded. *)
Definition divide (x y : Num.number) : ev Num.number := ([y], (x / y)%num).

Definition value {A} (m : ev A) : A := snd m.
Definition divisors {A} (m : ev A) : list Num.number := fst m.

End Ev.

Notation "x <- m ;; k" := (Ev.bind m (fun x => k))
  (at level 61, m at next level, right associativity).

(* ===================================================================== *)
(** * services/grammarService.ts: what the grammar checker returns *)
(* ===================================================================== *)

Record GrammarIssue : Type := {
  type : jsstring;              (* grammar, spelling, style, punctuation *)
  message : jsstring;
  offset : Z;
  length : Z;
  replacements : list jsstring;
  context : jsstring;
  severity : jsstring;          (* error, warning, info *)
  rule_id : option jsstring;
  ai_explanation : option jsstring;
  ai_suggestion : option jsstring
}.

Record GrammarCheckResponse : Type := {
  text : jsstring;
  language : jsstring;
  detected_language : jsstring;
  issues : list GrammarIssue;
  issue_count : Z;
  suggestions_count : Z;
  corrected_text : option jsstring;
  ai_overall_feedback : option jsstring
}.

(* ===================================================================== *)
(** * components/Analyzer.tsx *)
(* ===================================================================== *)

(** [a?.includes(needle)] and the [||] chain over its results: [None] is
    [undefined]. *)
Definition opt_includes (s : option jsstring) (needle : string)
  : option bool :=
  option_map (fun s => Str.includes s (Str.lit needle)) s.

Definition truthy (v : option bool) : bool :=
  match v with Some true => true | _ => false end.

Definition or_else (a b : option bool) : option bool :=
  if truthy a then a else b.

Infix "|||" := or_else (at level 50, left associativity).

(** What the card shows of a result. *)
Record Card : Type := {
  grammarScore : Num.number;
  shownScore : option Z;        (* Math.round(grammarScore) *)
  errorCount : nat;
  warningCount : nat
}.

(** ** GrammarScoreCard, lines 191-237 *)

Module ScoreCard.
Section WithHost.
Context {host : Host}.

Definition totalWords (r : GrammarCheckResponse) : nat :=
  List.length (filter (fun w => (0 <? List.length w)%nat)
                      (Str.split_ws (text r))).

Definition typeWeights : list (jsstring * Num.number) :=
  [ (Str.lit "spelling", Num.decimal 20 1);
    (Str.lit "grammar", Num.decimal 15 1);
    (Str.lit "punctuation", Num.decimal 8 1);
    (Str.lit "style", Num.decimal 6 1);
    (Str.lit "capitalization", Num.decimal 4 1) ].

Definition isCapitalizationIssue (issue : GrammarIssue) : option bool :=
  opt_includes (Some (toLowerCase (message issue))) "capital"
  ||| opt_includes (Some (toLowerCase (message issue))) "nakamalaking titik"
  ||| opt_includes (rule_id issue) "CAPITALIZATION"
  ||| opt_includes (rule_id issue) "PROPER_NOUN"
  ||| opt_includes (rule_id issue) "NAME_AFTER".

(** The weight after the type-based step. *)
Definition typeWeightOf (issue : GrammarIssue) : Val.value :=
  if truthy (isCapitalizationIssue issue)
  then Val.VNumber (Num.decimal 4 1)
  else Val.or (Val.get typeWeights (type issue))
              (Val.VNumber (Num.decimal 10 1)).

(** The severity multiplier, applied on top with [*=]. *)
Definition applySeverity (issue : GrammarIssue) (weight : Val.value)
  : Num.number :=
  if Str.eqb (severity issue) (Str.lit "error")
  then (Val.ToNumber weight * Num.decimal 12 1)%num
  else if Str.eqb (severity issue) (Str.lit "warning")
  then (Val.ToNumber weight * Num.decimal 8 1)%num
  else (Val.ToNumber weight * Num.decimal 5 1)%num.

(** The callback of [reduce]. *)
Definition step (sum : Num.number) (issue : GrammarIssue) : Num.number :=
  let weight := typeWeightOf issue in
  let weight := applySeverity issue weight in
  (sum + weight)%num.

Definition weightedErrors (iss : list GrammarIssue) : Num.number :=
  fold_left step iss Num.zero.

Definition errorRate (weightedErrors totalWords : Num.number)
  : Ev.ev Num.number :=
  if Num.gt totalWords Num.zero
  then q <- Ev.divide weightedErrors totalWords ;;
       Ev.ret (q * Num.ofZ 100)%num
  else Ev.ret Num.zero.

(** The score as a function of the issue list and of the word count. *)
Definition score (iss : list GrammarIssue) (totalWords : Num.number)
  : Ev.ev Num.number :=
  errorRate <- errorRate (weightedErrors iss) totalWords ;;
  Ev.ret (Num.Math_max Num.zero
            (Num.Math_min (Num.ofZ 100) (Num.ofZ 100 - errorRate)%num)).

Definition run (r : GrammarCheckResponse) : Ev.ev Num.number :=
  score (issues r) (Num.ofZ (Z.of_nat (totalWords r))).

Definition count_severity (s : string) (iss : list GrammarIssue) : nat :=
  List.length (filter (fun i => Str.eqb (severity i) (Str.lit s)) iss).

Definition GrammarScoreCard (grammarResult : option GrammarCheckResponse)
  : option Card :=
  match grammarResult with
  | None => None
  | Some r =>
      let grammarScore := Ev.value (run r) in
      Some {| grammarScore := grammarScore;
              shownScore := Num.Math_round grammarScore;
              errorCount := count_severity "error" (issues r);
              warningCount := count_severity "warning" (issues r) |}
  end.

(** The issue counts as a capitalization problem. *)
Definition flagged (i : GrammarIssue) : bool :=
  truthy (isCapitalizationIssue i).

(** The issues whose weight is a number of the table or the default:
    flagged, or of a type that is not a name every object inherits. *)
Definition weighable (i : GrammarIssue) : Prop :=
  flagged i = true \/ Val.inherited (type i) = false.

(** The grammar score of the card rendered for a result. *)
Definition cardScore (r : GrammarCheckResponse) : option Num.number :=
  option_map grammarScore (GrammarScoreCard (Some r)).

End WithHost.
End ScoreCard.

(** ** GrammarScoreCard, the second copy, lines 1733-1774 *)

Module ScoreCardCopy.
Section WithHost.
Context {host : Host}.

Definition totalWords (r : GrammarCheckResponse) : nat :=
  List.length (filter (fun w => (0 <? List.length w)%nat)
                      (Str.split_ws (text r))).

Definition typeWeights : list (jsstring * Num.number) :=
  [ (Str.lit "spelling", Num.decimal 20 1);
    (Str.lit "grammar", Num.decimal 15 1);
    (Str.lit "punctuation", Num.decimal 8 1);
    (Str.lit "style", Num.decimal 6 1);
    (Str.lit "capitalization", Num.decimal 4 1) ].

Definition isCapitalizationIssue (issue : GrammarIssue) : option bool :=
  opt_includes (Some (toLowerCase (message issue))) "capital"
  ||| opt_includes (Some (toLowerCase (message issue))) "nakamalaking titik"
  ||| opt_includes (rule_id issue) "CAPITALIZATION"
  ||| opt_includes (rule_id issue) "PROPER_NOUN"
  ||| opt_includes (rule_id issue) "NAME_AFTER".

Definition step (sum : Num.number) (issue : GrammarIssue) : Num.number :=
  let weight :=
    if truthy (isCapitalizationIssue issue)
    then Val.VNumber (Num.decimal 4 1)
    else Val.or (Val.get typeWeights (type issue))
                (Val.VNumber (Num.decimal 10 1)) in
  let weight :=
    if Str.eqb (severity issue) (Str.lit "error")
    then (Val.ToNumber weight * Num.decimal 12 1)%num
    else if Str.eqb (severity issue) (Str.lit "warning")
    then (Val.ToNumber weight * Num.decimal 8 1)%num
    else (Val.ToNumber weight * Num.decimal 5 1)%num in
  (sum + weight)%num.

Definition run (r : GrammarCheckResponse) : Ev.ev Num.number :=
  let totalWords := Num.ofZ (Z.of_nat (totalWords r)) in
  let weightedErrors := fold_left step (issues r) Num.zero in
  errorRate <-
    (if Num.gt totalWords Num.zero
     then q <- Ev.divide weightedErrors totalWords ;;
          Ev.ret (q * Num.ofZ 100)%num
     else Ev.ret Num.zero) ;;
  Ev.ret (Num.Math_max Num.zero
            (Num.Math_min (Num.ofZ 100) (Num.ofZ 100 - errorRate)%num)).

Definition GrammarScoreCard (grammarResult : option GrammarCheckResponse)
  : option Card :=
  match grammarResult with
  | None => None
  | Some r =>
      let grammarScore := Ev.value (run r) in
      Some {| grammarScore := grammarScore;
              shownScore := Num.Math_round grammarScore;
              errorCount :=
                List.length
                  (filter (fun i => Str.eqb (severity i) (Str.lit "error"))
                          (issues r));
              warningCount :=
                List.length
                  (filter (fun i => Str.eqb (severity i) (Str.lit "warning"))
                          (issues r)) |}
  end.

End WithHost.
End ScoreCardCopy.

(** ** handleAnalyze, lines 764-795 (the same text at 2412-2441) *)

Module Handler.

Record File : Type := {
  base64 : jsstring;
  mimeType : jsstring;
  name : jsstring
}.

(** The state of the component the handler reads. *)
Record State : Type := {
  inputText : jsstring;
  currentText : jsstring;
  selectedFile : option File;
  isLoading : bool
}.

(** What the handler does, in order: state updates and requests sent. *)
Inductive event : Type :=
| setErrorMessage (m : option jsstring)
| setActiveIssue_null
| setIsLoading (b : bool)
| setCurrentText (t : jsstring)
| setInputText (t : jsstring)
| analyzeStudentWorkAPI (t : jsstring) (image : option jsstring)
| classifyTextComplexityAPI (t : jsstring) (image : option jsstring)
| checkGrammar (t : jsstring).

Definition msg_empty : jsstring :=
  Str.lit "Please enter text or upload a document to analyze.".
Definition msg_too_short : jsstring :=
  Str.lit "Text is too short. Please provide at least 15 characters for analysis.".

(** [a || b] on strings: the empty string is falsy. *)
Definition str_or (a b : jsstring) : jsstring :=
  match a with [] => b | _ => a end.

Definition is_empty (s : jsstring) : bool :=
  match s with [] => true | _ => false end.

Definition is_none {A} (o : option A) : bool :=
  match o with None => true | Some _ => false end.

(** The handler up to its first [await]: the two guards, the loading
    guard, and the three requests of [Promise.all]. *)
Definition handleAnalyze (st : State) : list event :=
  let textToAnalyze := str_or (inputText st) (currentText st) in
  [setErrorMessage None; setActiveIssue_null] ++
  if is_empty (Str.trim textToAnalyze) && is_none (selectedFile st)
  then [setErrorMessage (Some msg_empty)]
  else if is_none (selectedFile st)
          && (List.length (Str.trim textToAnalyze) <? 15)%nat
  then [setErrorMessage (Some msg_too_short)]
  else if isLoading st then []
  else
    let finalText := textToAnalyze in
    [ setIsLoading true; setCurrentText finalText; setInputText [];
      analyzeStudentWorkAPI finalText (option_map base64 (selectedFile st));
      classifyTextComplexityAPI finalText
        (option_map base64 (selectedFile st));
      checkGrammar finalText ].

(** A request for analysis. *)
Definition is_request (e : event) : bool :=
  match e with
  | analyzeStudentWorkAPI _ _ | classifyTextComplexityAPI _ _
  | checkGrammar _ => true
  | _ => false
  end.

Definition rejected_too_short (tr : list event) : Prop :=
  In (setErrorMessage (Some msg_too_short)) tr.

(** The text the handler analyzes, trimmed. *)
Definition trimmedText (st : State) : jsstring :=
  Str.trim (str_or (inputText st) (currentText st)).

End Handler.

(** ** The CEFR card of the result panel *)

(** [Language] of types.ts *)
Inductive Language : Type := ENGLISH | FILIPINO.

(** [cefrWordGroups] of [LinguisticMetrics], types.ts *)
Record CEFRWordGroups : Type := {
  basic : list jsstring;
  independent : list jsstring;
  proficient : list jsstring
}.

Module CefrCard.

(** Line 1304: the card is rendered when the diagnosis carries word
    groups. *)
Definition shown (groups : option CEFRWordGroups) : bool :=
  match groups with Some _ => true | None => false end.

(** Line 2943, the second copy: and the detected language of the grammar
    result, when there is one, is not ['tl']. *)
Definition shown_copy (groups : option CEFRWordGroups)
    (grammarResult : option GrammarCheckResponse) : bool :=
  match groups with
  | Some _ =>
      match grammarResult with
      | Some r => negb (Str.eqb (detected_language r) (Str.lit "tl"))
      | None => true
      end
  | None => false
  end.

End CefrCard.

(* ===================================================================== *)
(** * The specification's side *)
(* ===================================================================== *)

Module Spec.

(** ** Section 4.5: the weighted grammar score, in the spec's words *)

(** The issue types and severities of the data model (section 3). *)
Inductive IssueType : Type :=
  spelling | grammar | punctuation | style | capitalization.

Inductive Severity : Type := error | warning | info.

Definition typeWeight (t : IssueType) : Num.number :=
  match t with
  | spelling => Num.decimal 20 1
  | grammar => Num.decimal 15 1
  | punctuation => Num.decimal 8 1
  | style => Num.decimal 6 1
  | capitalization => Num.decimal 4 1
  end.

Definition severityMultiplier (s : Severity) : Num.number :=
  match s with
  | error => Num.decimal 12 1
  | warning => Num.decimal 8 1
  | info => Num.decimal 5 1
  end.

Definition IssueType_name (t : IssueType) : jsstring :=
  Str.lit match t with
          | spelling => "spelling" | grammar => "grammar"
          | punctuation => "punctuation" | style => "style"
          | capitalization => "capitalization"
          end.

Definition Severity_name (s : Severity) : jsstring :=
  Str.lit match s with
          | error => "error" | warning => "warning" | info => "info"
          end.

(** The type and the severity a checker issue carries, when they are of
    the data model. *)
Definition typeOf (i : GrammarIssue) : option IssueType :=
  find (fun t => Str.eqb (type i) (IssueType_name t))
       [spelling; grammar; punctuation; style; capitalization].

Definition severityOf (i : GrammarIssue) : option Severity :=
  find (fun s => Str.eqb (severity i) (Severity_name s))
       [error; warning; info].

Definition wellTyped (i : GrammarIssue) : Prop :=
  typeOf i <> None /\ severityOf i <> None.

(** [clamp(x, lo, hi)] *)
Definition clamp (x lo hi : Num.number) : Num.number :=
  Num.Math_max lo (Num.Math_min hi x).

(** The sum of a list of weights, taken in order from 0. *)
Definition sum (ws : list Num.number) : Num.number :=
  fold_left Num.add ws Num.zero.

(** [clamp(100 - (sum of weights / wordCount) * 100, 0, 100)] *)
Definition formula (ws : list Num.number) (wordCount : Num.number)
  : Num.number :=
  clamp (Num.ofZ 100 - (sum ws / wordCount) * Num.ofZ 100)%num
        Num.zero (Num.ofZ 100).

(** The number of non-empty white-space-separated words of a text: the
    positions where a word starts.  [prev_ws] tells that the text before
    the position ends with white space, or is empty. *)
Fixpoint wordStarts (prev_ws : bool) (s : jsstring) : nat :=
  match s with
  | [] => 0
  | c :: s' =>
      if Str.isWhiteSpace c then wordStarts true s'
      else ((if prev_ws then 1 else 0) + wordStarts false s')%nat
  end.

Definition wordCount (s : jsstring) : nat := wordStarts true s.

(** [typeWeight(type) x severityMultiplier(severity)] on the nominal type
    of the issue. *)
Definition nominalWeight (i : GrammarIssue) : option Num.number :=
  match typeOf i, severityOf i with
  | Some t, Some s => Some (typeWeight t * severityMultiplier s)%num
  | _, _ => None
  end.

(** The same with the override: an issue flagged as a capitalization
    problem is weighted as [capitalization]. *)
Definition weight (flagged : GrammarIssue -> bool) (i : GrammarIssue)
  : option Num.number :=
  match typeOf i, severityOf i with
  | Some t, Some s =>
      Some (typeWeight (if flagged i then capitalization else t)
            * severityMultiplier s)%num
  | _, _ => None
  end.

(** All the weights of an issue list, when every issue has one. *)
Fixpoint weights (w : GrammarIssue -> option Num.number)
    (iss : list GrammarIssue) : option (list Num.number) :=
  match iss with
  | [] => Some []
  | i :: iss' =>
      match w i, weights w iss' with
      | Some x, Some xs => Some (x :: xs)
      | _, _ => None
      end
  end.

(** The score of a result by the formula, with the given weighting. *)
Definition score (w : GrammarIssue -> option Num.number)
    (r : GrammarCheckResponse) : option Num.number :=
  option_map
    (fun ws => formula ws (Num.ofZ (Z.of_nat (wordCount (text r)))))
    (weights w (issues r)).

(** ** Section 4.2: the CEFR vocabulary classifier *)

(** Modelled from the spec: the six CEFR bands of the backend's lexicon. *)
Inductive CEFRBand : Type := A1 | A2 | B1 | B2 | C1 | C2.

Definition sameBand (a b : CEFRBand) : bool :=
  match a, b with
  | A1, A1 | A2, A2 | B1, B1 | B2, B2 | C1, C1 | C2, C2 => true
  | _, _ => false
  end.

(** Modelled from the spec: the word groups with the raw count of words
    in each of the six bands. *)
Record CEFRResult : Type := {
  groups : CEFRWordGroups;
  distribution : CEFRBand -> nat
}.

Definition noGroups : CEFRWordGroups :=
  {| basic := []; independent := []; proficient := [] |}.

(** Modelled from the spec: all groups empty. *)
Definition emptyResult : CEFRResult :=
  {| groups := noGroups; distribution := fun _ => 0%nat |}.

(** Modelled from the spec: a word of band [b] joins its tier, basic for
    A1 and A2, independent for B1 and B2, proficient for C1 and C2, and
    counts in its band. *)
Definition addWord (b : CEFRBand) (w : jsstring) (r : CEFRResult)
  : CEFRResult :=
  let g := groups r in
  {| groups :=
       match b with
       | A1 | A2 => {| basic := basic g ++ [w];
                       independent := independent g;
                       proficient := proficient g |}
       | B1 | B2 => {| basic := basic g;
                       independent := independent g ++ [w];
                       proficient := proficient g |}
       | C1 | C2 => {| basic := basic g;
                       independent := independent g;
                       proficient := proficient g ++ [w] |}
       end;
     distribution :=
       fun b' => if sameBand b b' then S (distribution r b')
                 else distribution r b' |}.

Section Classifier.
Context {host : Host}.
(** The static lexicon, keyed by normalized word form. *)
Variable lexicon : jsstring -> option CEFRBand.

(** Modelled from the spec: each unique normalized word, in
    first-occurrence order, goes to the tier of its band; unknown words
    are left out. *)
Fixpoint classifyEnglish (seen : list jsstring) (words : list jsstring)
    (acc : CEFRResult) : CEFRResult :=
  match words with
  | [] => acc
  | w :: words' =>
      let k := toLowerCase w in
      if existsb (Str.eqb k) seen then classifyEnglish seen words' acc
      else
        classifyEnglish (k :: seen) words'
          match lexicon k with
          | Some b => addWord b k acc
          | None => acc
          end
  end.

(** Modelled from the spec: the CEFR vocabulary classifier
    [classifyVocabulary(words, language)] of the backend, whose code is
    not among the sources.  A no-op, all groups empty, unless the language
    is English. *)
Definition classifyVocabulary (words : list jsstring) (language : Language)
  : CEFRResult :=
  match language with
  | ENGLISH => classifyEnglish [] words emptyResult
  | _ => emptyResult
  end.

End Classifier.

End Spec.

(* ===================================================================== *)
(** * Concrete inputs *)
(* ===================================================================== *)

Module Sample.
Local Open Scope string_scope.

Definition issue (ty msg sev : string) (rule : option string) (off len : Z)
  : GrammarIssue :=
  {| type := Str.lit ty; message := Str.lit msg; offset := off;
     length := len; replacements := []; context := [];
     severity := Str.lit sev; rule_id := option_map Str.lit rule;
     ai_explanation := None; ai_suggestion := None |}.

Definition response (txt : string) (iss : list GrammarIssue)
  : GrammarCheckResponse :=
  {| text := Str.lit txt; language := Str.lit "auto";
     detected_language := Str.lit "en"; issues := iss;
     issue_count := Z.of_nat (List.length iss); suggestions_count := 0;
     corrected_text := None; ai_overall_feedback := None |}.

(** Ten words; a spelling error on [3, 8) and a grammar error on [5, 12). *)
Definition overlapping : GrammarCheckResponse :=
  response "He dont knows wat the teacher said about it today"
    [ issue "spelling" "Possible spelling mistake found." "error"
        (Some "MORFOLOGIK_RULE_EN_US") 3 5;
      issue "grammar" "The verb does not agree with the subject." "error"
        (Some "HE_VERB_AGR") 5 7 ].

(** No word at all, and one spelling error reported. *)
Definition wordless : GrammarCheckResponse :=
  response "   " [ issue "spelling" "Possible spelling mistake found."
                     "error" None 0 1 ].

(** A spelling issue whose message speaks of a capital letter. *)
Definition capitalMessage : GrammarIssue :=
  issue "spelling" "This sentence does not start with a Capital letter."
    "error" (Some "UPPERCASE_SENTENCE_START") 0 4.


(** One word, and the issue above. *)
Definition capitalised : GrammarCheckResponse :=
  response "hello" [capitalMessage].

(** One word, and an issue of the inherited type below. *)
Definition inheriting : GrammarCheckResponse :=
  response "hello"
    [ issue "constructor" "Possible mistake found." "error" None 0 4 ].

(** An issue whose type is a name every object inherits. *)
Definition inheritedType : GrammarIssue :=
  issue "constructor" "Possible mistake found." "error" None 0 4.

(** An issue of a type the table does not list. *)
Definition typography : GrammarIssue :=
  issue "typography" "Use a smart quote here." "info" None 0 1.

(** Fourteen code units between the blanks, no file attached. *)
Definition shortText : Handler.State :=
  {| Handler.inputText := Str.lit "  The cat sleeps  ";
     Handler.currentText := [];
     Handler.selectedFile := None;
     Handler.isLoading := false |}.

(** Fifteen code units between the blanks, no file attached. *)
Definition longEnough : Handler.State :=
  {| Handler.inputText := [];
     Handler.currentText := Str.lit " The cat sleeps. ";
     Handler.selectedFile := None;
     Handler.isLoading := false |}.

(** A four-word lexicon, and the words of a phrase. *)
Definition lexicon (w : jsstring) : option Spec.CEFRBand :=
  if Str.eqb w (Str.lit "the") then Some Spec.A1
  else if Str.eqb w (Str.lit "shift") then Some Spec.B1
  else if Str.eqb w (Str.lit "ubiquitous") then Some Spec.C2
  else if Str.eqb w (Str.lit "paradigm") then Some Spec.C1
  else None.

Definition words : list jsstring :=
  map Str.lit ["The"; "ubiquitous"; "paradigm"; "shift"].

End Sample.

(* ===================================================================== *)
(** * More of the language: positions, searching, sorting *)
(* ===================================================================== *)

Module Js.

Definition len (s : jsstring) : Z := Z.of_nat (List.length s).

(** The code units of [s] from position [from] up to position [to], both
    already clamped to the string. *)
Definition range (s : jsstring) (from to : Z) : jsstring :=
  firstn (Z.to_nat (to - from)) (skipn (Z.to_nat from) s).

(** A relative index of [slice]: negative indices count from the end. *)
Definition relative (l i : Z) : Z :=
  if i <? 0 then Z.max (l + i) 0 else Z.min i l.

(** [s.slice(a, b)] *)
Definition slice (s : jsstring) (a b : Z) : jsstring :=
  let from := relative (len s) a in
  let to := relative (len s) b in
  range s from (Z.max from to).

(** [s.slice(a)] *)
Definition slice_from (s : jsstring) (a : Z) : jsstring :=
  slice s a (len s).

Definition clamp (l i : Z) : Z := Z.min (Z.max i 0) l.

(** [s.substring(a, b)]: both ends clamped to the string, and swapped when
    they come in the wrong order. *)
Definition substring (s : jsstring) (a b : Z) : jsstring :=
  let fs := clamp (len s) a in
  let fe := clamp (len s) b in
  range s (Z.min fs fe) (Z.max fs fe).

(** [s.substring(a)] *)
Definition substring_from (s : jsstring) (a : Z) : jsstring :=
  substring s a (len s).

(** The first position at or after [k], the position of [s] in the whole
    string, where [needle] starts. *)
Fixpoint search (s needle : jsstring) (k : nat) : option nat :=
  if Str.startsWith s needle then Some k
  else match s with
       | [] => None
       | _ :: s' => search s' needle (S k)
       end.

(** [s.indexOf(needle, position)]: -1 when there is no occurrence. *)
Definition indexOf (s needle : jsstring) (position : Z) : Z :=
  let p := Z.to_nat (clamp (len s) position) in
  match search (skipn p s) needle p with
  | Some k => Z.of_nat k
  | None => -1
  end.

(** [s.split(sep)] for a separator of one code unit. *)
Fixpoint split_from (sep : Str.code_unit) (cur s : jsstring)
  : list jsstring :=
  match s with
  | [] => [cur]
  | c :: s' =>
      if (c =? sep)%N then cur :: split_from sep [] s'
      else split_from sep (cur ++ [c]) s'
  end.

Definition split (s : jsstring) (sep : Str.code_unit) : list jsstring :=
  split_from sep [] s.

(** [s.replace(/c/g, rep)] for one code unit [c] and a replacement without
    dollar sign. *)
Definition replaceAll (c : Str.code_unit) (rep : jsstring) (s : jsstring)
  : jsstring :=
  flat_map (fun x => if (x =? c)%N then rep else [x]) s.

(** The replacement text of [replace] with a string pattern: [$$] is a
    dollar, [$&] the match, [$`] what precedes it, [$'] what follows it;
    without captures every other dollar stands for itself. *)
Fixpoint substitution (matched before after : jsstring) (rep : jsstring)
  : jsstring :=
  match rep with
  | 36%N :: 36%N :: rep' => 36%N :: substitution matched before after rep'
  | 36%N :: 38%N :: rep' => matched ++ substitution matched before after rep'
  | 36%N :: 96%N :: rep' => before ++ substitution matched before after rep'
  | 36%N :: 39%N :: rep' => after ++ substitution matched before after rep'
  | c :: rep' => c :: substitution matched before after rep'
  | [] => []
  end.

(** [s.replace(pattern, rep)] with a string pattern: the first occurrence
    only. *)
Definition replace (s pattern rep : jsstring) : jsstring :=
  let k := indexOf s pattern 0 in
  if k =? -1 then s
  else
    let before := range s 0 k in
    let after := range s (k + len pattern) (len s) in
    before ++ substitution pattern before after rep ++ after.

(** [a.sort(cmp)]: stable, an element moves behind the ones it compares
    greater than. *)
Section Sort.
Context {A : Type} (cmp : A -> A -> Z).

Fixpoint insert (x : A) (l : list A) : list A :=
  match l with
  | [] => [x]
  | y :: l' => if 0 <? cmp x y then y :: insert x l' else x :: l
  end.

Definition sort (l : list A) : list A := fold_right insert [] l.

End Sort.

End Js.

(* ===================================================================== *)
(** * types.ts: the issues of a diagnosis *)
(* ===================================================================== *)

Module Diag.

Inductive IssueCategory : Type := GRAMMAR | CLARITY | VOCABULARY | STYLE.

(** [GrammarIssue] of types.ts, the issue of a diagnosis; the issue of the
    grammar service above is [GrammarServiceIssue] in Analyzer.tsx. *)
Record GrammarIssue : Type := {
  id : option jsstring;
  original : jsstring;
  suggestion : jsstring;
  type : jsstring;
  category : IssueCategory;
  context : jsstring;
  explanation : option jsstring
}.

End Diag.

(* ===================================================================== *)
(** * components/Analyzer.tsx: InteractiveEditor, lines 430-499 (the same
      text at 2057-2107) *)
(* ===================================================================== *)

Module Editor.

Record Segment : Type := {
  text : jsstring;
  grammarIssue : option GrammarIssue;
  diagIssue : option Diag.GrammarIssue
}.

Definition plain (t : jsstring) : Segment :=
  {| text := t; grammarIssue := None; diagIssue := None |}.

(** [grammarHighlights], sorted by offset. *)
Definition grammarHighlights (grammarIssues : option (list GrammarIssue))
  : list GrammarIssue :=
  Js.sort (fun a b => offset a - offset b)
    match grammarIssues with Some l => l | None => [] end.

(** One turn of the first [forEach]: the state is the segments pushed so
    far and [pos]. *)
Definition pushHighlight (t : jsstring) (st : list Segment * Z)
    (highlight : GrammarIssue) : list Segment * Z :=
  let '(segments, pos) := st in
  let segments :=
    if offset highlight >? pos
    then segments ++ [plain (Js.substring t pos (offset highlight))]
    else segments in
  (segments ++
     [ {| text := Js.substring t (offset highlight)
                    (offset highlight + length highlight);
          grammarIssue := Some highlight;
          diagIssue := None |} ],
   offset highlight + length highlight).

(** The segments built from the grammar highlights. *)
Definition grammarSegments (t : jsstring)
    (grammarIssues : option (list GrammarIssue)) : list Segment :=
  let '(segments, pos) :=
    fold_left (pushHighlight t) (grammarHighlights grammarIssues) ([], 0) in
  if pos <? Js.len t then segments ++ [plain (Js.substring_from t pos)]
  else segments.

(** One turn of the second [forEach]: the state is the segments and
    [searchFrom]. *)
Definition pushIssue (t : jsstring) (st : list Segment * Z)
    (issue : Diag.GrammarIssue) : list Segment * Z :=
  let '(segments, searchFrom) := st in
  let index := Js.indexOf t (Diag.original issue) searchFrom in
  if index =? -1 then st
  else
    let segments :=
      if index >? searchFrom
      then segments ++ [plain (Js.substring t searchFrom index)]
      else segments in
    (segments ++
       [ {| text := Diag.original issue;
            grammarIssue := None;
            diagIssue := Some issue |} ],
     index + Js.len (Diag.original issue)).

(** The segments built from the issues of the diagnosis, when there is no
    grammar issue. *)
Definition diagnosisSegments (t : jsstring) (issues : list Diag.GrammarIssue)
  : list Segment :=
  let sortedIssues :=
    Js.sort (fun a b => Js.indexOf t (Diag.original a) 0
                        - Js.indexOf t (Diag.original b) 0) issues in
  let '(segments, searchFrom) :=
    fold_left (pushIssue t) sortedIssues ([], 0) in
  if searchFrom <? Js.len t
  then segments ++ [plain (Js.substring_from t searchFrom)]
  else segments.

(** [segments] as the editor renders them. *)
Definition segments (t : jsstring) (issues : list Diag.GrammarIssue)
    (grammarIssues : option (list GrammarIssue)) : list Segment :=
  match grammarIssues with
  | Some (_ :: _) => grammarSegments t grammarIssues
  | _ => diagnosisSegments t issues
  end.

(** The characters of the segments, in order. *)
Definition shownText (segs : list Segment) : jsstring :=
  flat_map text segs.

(** [\w] *)
Definition isWordChar (c : Str.code_unit) : bool :=
  ((48 <=? c) && (c <=? 57) || (65 <=? c) && (c <=? 90)
   || (c =? 95) || (97 <=? c) && (c <=? 122))%N.

(** [s.split(/(\b\w+\b)/g)]: the maximal runs of word characters, each
    between the pieces that separate them; the list starts and ends with
    a separating piece, which may be empty.  [cur] is the piece being
    read and [in_word] tells that it is a run of word characters. *)
Fixpoint splitWords_from (in_word : bool) (cur s : jsstring)
  : list jsstring :=
  match s with
  | [] => if in_word then [cur; []] else [cur]
  | c :: s' =>
      if Bool.eqb (isWordChar c) in_word
      then splitWords_from in_word (cur ++ [c]) s'
      else cur :: splitWords_from (isWordChar c) [c] s'
  end.

Definition splitWords (s : jsstring) : list jsstring :=
  splitWords_from false [] s.

Section WithHost.
Context {host : Host}.

(** How [renderWithProficientHighlight] renders one part. *)
Inductive Part : Type :=
| Proficient (part : jsstring)       (* highlighted as a C1/C2 word *)
| Other (part : jsstring).

Definition partText (p : Part) : jsstring :=
  match p with Proficient t | Other t => t end.

(** [renderWithProficientHighlight], lines 550-569. *)
Definition renderWithProficientHighlight
    (proficientWords : option (list jsstring)) (segmentText : jsstring)
  : list Part :=
  let proficientSet :=
    map toLowerCase
      match proficientWords with Some l => l | None => [] end in
  map (fun part =>
         let lower := toLowerCase part in
         if existsb (Str.eqb lower) proficientSet then Proficient part
         else Other part)
      (splitWords segmentText).

(** What the editor displays of a segment: the text of a highlighted
    segment as it is, the text of a plain one part by part. *)
Definition displayed (proficientWords : option (list jsstring))
    (seg : Segment) : jsstring :=
  match grammarIssue seg, diagIssue seg with
  | None, None =>
      flat_map partText
        (renderWithProficientHighlight proficientWords (text seg))
  | _, _ => text seg
  end.

End WithHost.

End Editor.

(** The highlights lie one after the other from position [pos] up to
    position [stop]: none starts before the previous one ends, none has a
    negative length, none runs past [stop]. *)
Fixpoint laidOutTo (stop pos : Z) (hs : list GrammarIssue) : Prop :=
  match hs with
  | [] => pos <= stop
  | h :: hs' =>
      pos <= offset h /\ 0 <= length h
      /\ laidOutTo stop (offset h + length h) hs'
  end.

(** The same within the text [t]. *)
Definition laidOut (t : jsstring) (pos : Z) (hs : list GrammarIssue)
  : Prop :=
  laidOutTo (Js.len t) pos hs.

(** The issues that the segments carry, in order. *)
Definition carried (segs : list Editor.Segment) : list GrammarIssue :=
  flat_map (fun seg => match Editor.grammarIssue seg with
                       | Some i => [i]
                       | None => []
                       end) segs.

Definition carriedDiag (segs : list Editor.Segment)
  : list Diag.GrammarIssue :=
  flat_map (fun seg => match Editor.diagIssue seg with
                       | Some i => [i]
                       | None => []
                       end) segs.

(* ===================================================================== *)
(** * services/grammarService.ts: highlightIssues, lines 278-292 *)
(* ===================================================================== *)

Module Service.

(** The double quote of the template strings. *)
Definition quote : jsstring := [34%N].

(** The [mark] element put around the text [error] of an issue. *)
Definition mark (issue : GrammarIssue) (error : jsstring) : jsstring :=
  Str.lit "<mark class=" ++ quote ++ Str.lit "grammar-" ++ severity issue
  ++ quote ++ Str.lit " data-message=" ++ quote ++ message issue ++ quote
  ++ Str.lit ">" ++ error ++ Str.lit "</mark>".

(** One turn of the loop. *)
Definition highlightStep (highlighted : jsstring) (issue : GrammarIssue)
  : jsstring :=
  let before := Js.slice highlighted 0 (offset issue) in
  let error :=
    Js.slice highlighted (offset issue) (offset issue + length issue) in
  let after := Js.slice_from highlighted (offset issue + length issue) in
  before ++ mark issue error ++ after.

(** [sortedIssues]: by offset, the last one first. *)
Definition sortedIssues (issues : list GrammarIssue) : list GrammarIssue :=
  Js.sort (fun a b => offset b - offset a) issues.

Definition highlightIssues (t : jsstring) (issues : list GrammarIssue)
  : jsstring :=
  fold_left highlightStep (sortedIssues issues) t.

End Service.

(** The issues in the order of the text. *)
Definition inTextOrder (issues : list GrammarIssue) : list GrammarIssue :=
  rev (Service.sortedIssues issues).

(** The text read from left to right, each issue in its [mark] where it
    lies: the issues [asc] come in the order of the text, from position
    [pos] on. *)
Fixpoint markedUp (t : jsstring) (pos : Z) (asc : list GrammarIssue)
  : jsstring :=
  match asc with
  | [] => Js.range t pos (Js.len t)
  | i :: rest =>
      Js.range t pos (offset i)
      ++ Service.mark i (Js.range t (offset i) (offset i + length i))
      ++ markedUp t (offset i + length i) rest
  end.

(* ===================================================================== *)
(** * components/GrammarChecker.tsx *)
(* ===================================================================== *)

Module Checker.

(** [applySuggestion], lines 45-52: the new text. *)
Definition applySuggestion (t : jsstring) (issue : GrammarIssue)
    (suggestion : jsstring) : jsstring :=
  let before := Js.slice t 0 (offset issue) in
  let after := Js.slice_from t (offset issue + length issue) in
  before ++ suggestion ++ after.

(** [escapeHtml], lines 86-93 *)
Definition escapeHtml (unsafe : jsstring) : jsstring :=
  Js.replaceAll 39%N (Str.lit "&#039;")
    (Js.replaceAll 34%N (Str.lit "&quot;")
       (Js.replaceAll 62%N (Str.lit "&gt;")
          (Js.replaceAll 60%N (Str.lit "&lt;")
             (Js.replaceAll 38%N (Str.lit "&amp;") unsafe)))).

End Checker.

(* ===================================================================== *)
(** * components/Analyzer.tsx: the rest of the panel *)
(* ===================================================================== *)

Module Panel.

(** The text after [handleAcceptSuggestion], lines 872-878: the first
    occurrence of the original is replaced. *)
Definition acceptedText (currentText : jsstring)
    (issue : Diag.GrammarIssue) : jsstring :=
  Js.replace currentText (Diag.original issue) (Diag.suggestion issue).

(** The title under which [handleAnalyze] saves an analysis, lines
    821-823; App.tsx computes the same for a cached analysis without
    title, lines 57-58. *)
Definition title (analyzedText : jsstring) : jsstring :=
  let firstLine :=
    match find (fun line => (0 <? List.length (Str.trim line))%nat)
               (Js.split analyzedText 10%N) with
    | Some line => Handler.str_or line (Str.lit "Untitled Analysis")
    | None => Str.lit "Untitled Analysis"
    end in
  if 60 <? Js.len firstLine
  then Js.slice firstLine 0 60 ++ Str.lit "..."
  else firstLine.

(** [getScoreColor], lines 239-244 *)
Record Colors : Type := { bg : jsstring; text : jsstring; border : jsstring }.

Definition green : Colors :=
  {| bg := Str.lit "bg-green-100"; text := Str.lit "text-green-600";
     border := Str.lit "border-green-200" |}.
Definition blue : Colors :=
  {| bg := Str.lit "bg-blue-100"; text := Str.lit "text-blue-600";
     border := Str.lit "border-blue-200" |}.
Definition orange : Colors :=
  {| bg := Str.lit "bg-orange-100"; text := Str.lit "text-orange-600";
     border := Str.lit "border-orange-200" |}.
Definition red : Colors :=
  {| bg := Str.lit "bg-red-100"; text := Str.lit "text-red-600";
     border := Str.lit "border-red-200" |}.

Definition getScoreColor (score : Num.number) : Colors :=
  if Num.le (Num.ofZ 90) score then green
  else if Num.le (Num.ofZ 75) score then blue
  else if Num.le (Num.ofZ 60) score then orange
  else red.

(** The colours of the card of a result. *)
Definition cardColors {host : Host} (r : GrammarCheckResponse) : Colors :=
  getScoreColor (Ev.value (ScoreCard.run r)).

(** The four colours, from the worst to the best. *)
Definition rank (c : Colors) : nat :=
  if Str.eqb (bg c) (bg green) then 3
  else if Str.eqb (bg c) (bg blue) then 2
  else if Str.eqb (bg c) (bg orange) then 1
  else 0.

(** [(reader.result as string).split(',')[1]], by which the uploads take
    the payload of a data URL, lines 933, 955 and 967; [None] is
    [undefined]. *)
Definition base64Of (result : jsstring) : option jsstring :=
  nth_error (Js.split result 44%N) 1.

End Panel.

(* ===================================================================== *)
(** * App.tsx: the recent analyses, lines 131-138 *)
(* ===================================================================== *)

Module App.
Section Cache.
(** The results an analysis carries. *)
Variables Diagnosis Complexity : Type.

(** [CachedAnalysis] of types.ts; the timestamp in milliseconds. *)
Record CachedAnalysis : Type := {
  id : jsstring;
  timestamp : Z;
  title : jsstring;
  studentText : jsstring;
  diagnosisResult : option Diagnosis;
  complexityResult : option Complexity;
  referenceUsed : option jsstring
}.

Record State : Type := {
  recentAnalyses : list CachedAnalysis;
  selectedAnalysis : option CachedAnalysis
}.

Definition handleSaveAnalysis (analysis : CachedAnalysis) (st : State)
  : State :=
  {| recentAnalyses := firstn 20 (analysis :: recentAnalyses st);
     selectedAnalysis := selectedAnalysis st |}.

Definition handleDeleteAnalysis (i : jsstring) (st : State) : State :=
  {| recentAnalyses :=
       filter (fun a => negb (Str.eqb (id a) i)) (recentAnalyses st);
     selectedAnalysis :=
       match selectedAnalysis st with
       | Some prev => if Str.eqb (id prev) i then None else Some prev
       | None => None
       end |}.

Inductive action : Type :=
| Save (analysis : CachedAnalysis)
| Delete (i : jsstring).

Definition perform (st : State) (a : action) : State :=
  match a with
  | Save analysis => handleSaveAnalysis analysis st
  | Delete i => handleDeleteAnalysis i st
  end.

End Cache.
End App.

(* ===================================================================== *)
(** * The requests of handleAnalyze, lines 791-795 *)
(* ===================================================================== *)

(** The three requests of [Promise.all], for the state [st]. *)
Definition requests (st : Handler.State) : list Handler.event :=
  let finalText :=
    Handler.str_or (Handler.inputText st) (Handler.currentText st) in
  let image := option_map Handler.base64 (Handler.selectedFile st) in
  [ Handler.analyzeStudentWorkAPI finalText image;
    Handler.classifyTextComplexityAPI finalText image;
    Handler.checkGrammar finalText ].

(* ===================================================================== *)
(** * Numbers in normal form *)
(* ===================================================================== *)

(** The significand of a finite Number has at most 53 bits, as every
    result of a rounding has. *)
Definition normal (x : Num.number) : Prop :=
  match x with
  | S754_finite _ m _ => Z.pos m < 2 ^ Num.prec
  | _ => True
  end.

(* ===================================================================== *)
(** * Texts, issues and analyses at which the theorems are applied *)
(* ===================================================================== *)

Module Cases.
Local Open Scope string_scope.

(** Two issues apart from each other, the later one given first. *)
Definition apart : GrammarCheckResponse :=
  Sample.response "He dont knows wat the teacher said"
    [ Sample.issue "spelling" "Possible spelling mistake found." "error"
        (Some "MORFOLOGIK_RULE_EN_US") 14 3;
      Sample.issue "grammar" "Write the negation with an apostrophe."
        "warning" (Some "EN_CONTRACTION_SPELLING") 3 4 ].

Definition apartText : jsstring := text apart.
Definition apartIssues : list GrammarIssue := issues apart.


(** An issue of the range [3, 5), and one left over from a longer text. *)
Definition verb : GrammarIssue :=
  Sample.issue "grammar" "The verb does not agree with the subject." "error"
    (Some "HE_VERB_AGR") 3 2.

(** Issues of a diagnosis. *)
Definition diag (original suggestion : string) : Diag.GrammarIssue :=
  {| Diag.id := None; Diag.original := Str.lit original;
     Diag.suggestion := Str.lit suggestion; Diag.type := Str.lit "Spelling";
     Diag.category := Diag.GRAMMAR; Diag.context := [];
     Diag.explanation := None |}.

Definition wat : Diag.GrammarIssue := diag "wat" "what".
Definition teh : Diag.GrammarIssue := diag "teh" "the".

(** Saved analyses without results. *)
Definition analysis (i ttl txt : string) (time : Z)
  : App.CachedAnalysis unit unit :=
  {| App.id := Str.lit i; App.timestamp := time; App.title := Str.lit ttl;
     App.studentText := Str.lit txt; App.diagnosisResult := None;
     App.complexityResult := None; App.referenceUsed := None |}.

Definition first : App.CachedAnalysis unit unit :=
  analysis "1730000000000" "The cat sleeps." "The cat sleeps." 1730000000000.
Definition second : App.CachedAnalysis unit unit :=
  analysis "1730000060000" "He go to school." "He go to school."
    1730000060000.

Definition noAnalyses : App.State unit unit :=
  {| App.recentAnalyses := []; App.selectedAnalysis := None |}.

End Cases.

(* ===================================================================== *)
(** * Facts on binary64 rounding *)
(* ===================================================================== *)

Module NumFacts.
Import Num.

Lemma iter_pos_nat {A} (f : A -> A) (p : positive) (x : A) :
  iter_pos f p x = Nat.iter (Pos.to_nat p) f x.
Proof.
  revert x. induction p as [p IH|p IH|]; intro x; cbn [iter_pos].
  - rewrite !IH, Pos2Nat.inj_xI, <- Nat.iter_add, <- Nat.iter_succ_r.
    f_equal. lia.
  - rewrite !IH, Pos2Nat.inj_xO, <- Nat.iter_add. f_equal. lia.
  - reflexivity.
Qed.

Lemma shr_1_m (mrs : shr_record) :
  0 <= shr_m mrs -> shr_m (shr_1 mrs) = shr_m mrs / 2.
Proof.
  destruct mrs as [m r s]; cbn [shr_m]. intro Hm.
  rewrite <- Z.div2_div.
  destruct m as [|[p|p|]|p]; try reflexivity; lia.
Qed.

Lemma shr_iter_m (n : nat) (mrs : shr_record) :
  0 <= shr_m mrs ->
  shr_m (Nat.iter n shr_1 mrs) = shr_m mrs / 2 ^ Z.of_nat n.
Proof.
  intro Hm. induction n as [|n IH].
  - cbn [Nat.iter]. now rewrite Z.div_1_r.
  - rewrite Nat.iter_succ, shr_1_m, IH.
    + rewrite Z.div_div by lia. f_equal.
      rewrite Nat2Z.inj_succ, Z.pow_succ_r by lia. lia.
    + rewrite IH. apply Z.div_pos; lia.
Qed.

Lemma shr_record_of_loc_m (m : Z) (l : location) :
  shr_m (shr_record_of_loc m l) = m.
Proof. destruct l as [|[]]; reflexivity. Qed.

(** What [shr_fexp] leaves of a non-negative mantissa. *)
Lemma shr_fexp_m (m e : Z) (l : location) :
  0 <= m ->
  let k := Z.max 0 (fexp prec emax (Zdigits2 m + e) - e) in
  shr_m (fst (shr_fexp prec emax m e l)) = m / 2 ^ k
  /\ snd (shr_fexp prec emax m e l) = e + k.
Proof.
  intros Hm k. subst k. unfold shr_fexp, shr.
  destruct (fexp prec emax (Zdigits2 m + e) - e) as [|p|p] eqn:E;
    cbn [fst snd].
  - rewrite shr_record_of_loc_m, Z.div_1_r. split; [reflexivity|lia].
  - rewrite iter_pos_nat, shr_iter_m, shr_record_of_loc_m, positive_nat_Z
      by now rewrite shr_record_of_loc_m.
    rewrite Z.max_r by lia. split; reflexivity.
  - rewrite shr_record_of_loc_m. rewrite Z.max_l by lia.
    rewrite Z.div_1_r. split; [reflexivity|lia].
Qed.

Lemma digits2_pos_bounds (p : positive) :
  2 ^ (Z.pos (digits2_pos p) - 1) <= Z.pos p < 2 ^ Z.pos (digits2_pos p).
Proof.
  induction p as [p IH|p IH|]; cbn [digits2_pos].
  - rewrite Pos2Z.inj_succ, (Pos2Z.inj_xI p).
    replace (Z.succ (Z.pos (digits2_pos p)) - 1)
      with (Z.succ (Z.pos (digits2_pos p) - 1)) by lia.
    rewrite !Z.pow_succ_r by lia.
    destruct IH as [L U]. revert L U.
    generalize (2 ^ (Z.pos (digits2_pos p) - 1)) (2 ^ Z.pos (digits2_pos p)).
    lia.
  - rewrite Pos2Z.inj_succ, (Pos2Z.inj_xO p).
    replace (Z.succ (Z.pos (digits2_pos p)) - 1)
      with (Z.succ (Z.pos (digits2_pos p) - 1)) by lia.
    rewrite !Z.pow_succ_r by lia.
    destruct IH as [L U]. revert L U.
    generalize (2 ^ (Z.pos (digits2_pos p) - 1)) (2 ^ Z.pos (digits2_pos p)).
    lia.
  - cbn. lia.
Qed.

Lemma Zdigits2_bounds (m : Z) :
  0 < m -> 2 ^ (Zdigits2 m - 1) <= m < 2 ^ Zdigits2 m /\ 0 < Zdigits2 m.
Proof.
  destruct m as [|p|p]; try lia. intros _. cbn [Zdigits2].
  split; [apply digits2_pos_bounds|lia].
Qed.

Lemma Zdigits2_mono (a b : Z) : 0 < a <= b -> Zdigits2 a <= Zdigits2 b.
Proof.
  intros [Ha Hab].
  destruct (Zdigits2_bounds Ha) as [[La _] Da].
  destruct (Zdigits2_bounds (m := b)) as [[_ Ub] Db]; [lia|].
  assert (H : 2 ^ (Zdigits2 a - 1) < 2 ^ Zdigits2 b) by lia.
  apply Z.pow_lt_mono_r_iff in H; lia.
Qed.

(** No underflow to zero: a positive mantissa stays positive under
    [shr_fexp] when the number lies above the least subnormal. *)
Lemma shr_fexp_positive (m e : Z) (l : location) :
  0 < m -> emin prec emax < e + Zdigits2 m ->
  0 < shr_m (fst (shr_fexp prec emax m e l))
  /\ (snd (shr_fexp prec emax m e l) = e
      /\ shr_m (fst (shr_fexp prec emax m e l)) = m
      \/ emin prec emax <= snd (shr_fexp prec emax m e l)).
Proof.
  intros Hm He.
  destruct (@shr_fexp_m m e l) as [-> ->]; [lia|].
  destruct (Zdigits2_bounds Hm) as [[Lm _] Dm].
  set (k := Z.max 0 _).
  assert (Hk : 0 <= k <= Zdigits2 m - 1).
  { subst k. unfold fexp, emin, prec, emax in *. lia. }
  split.
  - apply Z.div_str_pos. split; [apply Z.pow_pos_nonneg; lia|].
    apply Z.le_trans with (2 ^ (Zdigits2 m - 1)); [|exact Lm].
    apply Z.pow_le_mono_r; lia.
  - destruct (Z.eq_dec k 0) as [E|E].
    + left. rewrite E, Z.div_1_r. split; lia.
    + right. subst k. unfold fexp, emin, prec, emax in *. lia.
Qed.

Lemma round_nearest_even_bounds (m : Z) (l : location) :
  m <= round_nearest_even m l <= m + 1.
Proof.
  destruct l as [|[]]; cbn [round_nearest_even];
    try destruct (Z.even m); lia.
Qed.

Lemma binary_round_aux_positive (s : bool) (m e : Z) (l : location) :
  0 < m -> emin prec emax < e + Zdigits2 m ->
  nonzero s (binary_round_aux prec emax s m e l).
Proof.
  intros Hm He. unfold binary_round_aux.
  destruct (@shr_fexp_positive m e l Hm He) as [H1 H1'].
  destruct (shr_fexp prec emax m e l) as [mrs' e'] eqn:E1.
  cbn [fst snd] in H1, H1'.
  set (r := round_nearest_even (shr_m mrs') (loc_of_shr_record mrs')).
  assert (Hr : shr_m mrs' <= r <= shr_m mrs' + 1)
    by apply round_nearest_even_bounds.
  assert (He' : emin prec emax < e' + Zdigits2 r).
  { destruct (Zdigits2_bounds (m := r)) as [_ Dr]; [lia|].
    destruct H1' as [[-> Hsame]|Hmin]; [|lia].
    assert (Zdigits2 m <= Zdigits2 r); [|lia].
    apply Zdigits2_mono. lia. }
  destruct (@shr_fexp_positive r e' loc_Exact) as [H2 _]; [lia|exact He'|].
  destruct (shr_fexp prec emax r e' loc_Exact) as [mrs'' e''].
  cbn [fst] in H2.
  destruct (shr_m mrs'') as [|p|p]; try lia.
  destruct (e'' <=? emax - prec); [left; eauto|right; reflexivity].
Qed.

Lemma ofZ_positive (z : Z) : 0 < z -> nonzero false (ofZ z).
Proof.
  destruct z as [|p|p]; try lia. intros _.
  unfold ofZ, binary_normalize, binary_round.
  destruct (shl_align p 0 (fexp prec emax (Z.pos (digits2_pos p) + 0)))
    as [mz ez] eqn:E.
  apply binary_round_aux_positive; [lia|].
  unfold shl_align in E.
  destruct (fexp prec emax (Z.pos (digits2_pos p) + 0) - 0) as [|d|d] eqn:F;
    inversion E; subst; cbn [Zdigits2]; unfold emin, prec, emax, fexp in *;
    lia.
Qed.

Lemma gt_zero_iff (x : number) :
  gt x zero = true <-> nonzero false x.
Proof.
  unfold gt, zero, SFltb, nonzero.
  destruct x as [s|s| |s m e]; cbn; try destruct s; split;
    try discriminate; try reflexivity; intro H.
  all: try (destruct H as [(m' & e' & H)|H]; discriminate).
  all: try (right; reflexivity).
  all: try (left; eauto).
Qed.

Lemma ofZ_gt_zero (z : Z) : 0 < z -> gt (ofZ z) zero = true.
Proof. intro H. apply gt_zero_iff, ofZ_positive, H. Qed.

(** ** Integers below 2^53 convert exactly *)

Lemma digits2_pos_iter_xO (p d : positive) :
  digits2_pos (Pos.iter xO p d) = (digits2_pos p + d)%positive.
Proof.
  induction d as [|d IH] using Pos.peano_ind.
  - cbn. now rewrite Pos.add_1_r.
  - rewrite Pos.iter_succ. cbn [digits2_pos]. rewrite IH. lia.
Qed.

Lemma shr_fexp_aligned (m : positive) (e : Z) :
  fexp prec emax (Z.pos (digits2_pos m) + e) = e ->
  shr_fexp prec emax (Z.pos m) e loc_Exact
  = ({| shr_m := Z.pos m; shr_r := false; shr_s := false |}, e).
Proof.
  intro H. unfold shr_fexp. cbn [Zdigits2]. rewrite H, Z.sub_diag.
  reflexivity.
Qed.

(** A mantissa already in place is left as it is. *)
Lemma binary_round_aux_aligned (s : bool) (m : positive) (e : Z) :
  fexp prec emax (Z.pos (digits2_pos m) + e) = e -> e <= emax - prec ->
  binary_round_aux prec emax s (Z.pos m) e loc_Exact = S754_finite s m e.
Proof.
  intros H He. unfold binary_round_aux.
  rewrite (shr_fexp_aligned _ H).
  cbn [shr_m loc_of_shr_record round_nearest_even].
  rewrite (shr_fexp_aligned _ H). cbn [shr_m].
  apply Z.leb_le in He. now rewrite He.
Qed.

(** The Number of an integer below 2^53 is that integer: its mantissa is
    the integer shifted to 53 bits. *)
Lemma ofZ_exact (p : positive) :
  Z.pos p < 2 ^ 53 ->
  ofZ (Z.pos p)
  = S754_finite false
      (fst (shl_align p 0 (Z.pos (digits2_pos p) - 53)))
      (Z.pos (digits2_pos p) - 53).
Proof.
  intro Hp.
  assert (Hd : Z.pos (digits2_pos p) <= 53).
  { destruct (digits2_pos_bounds p) as [L _].
    destruct (Z_le_gt_dec (Z.pos (digits2_pos p)) 53) as [H|H]; [exact H|].
    exfalso.
    assert (2 ^ 53 <= 2 ^ (Z.pos (digits2_pos p) - 1))
      by (apply Z.pow_le_mono_r; lia).
    lia. }
  unfold ofZ, binary_normalize, binary_round.
  replace (fexp prec emax (Z.pos (digits2_pos p) + 0))
    with (Z.pos (digits2_pos p) - 53)
    by (unfold fexp, emin, prec, emax; lia).
  unfold shl_align.
  destruct (Z.pos (digits2_pos p) - 53 - 0) as [|d|d] eqn:E; cbn [fst].
  - replace (Z.pos (digits2_pos p) - 53) with 0 by lia.
    apply binary_round_aux_aligned;
      unfold fexp, emin, prec, emax; lia.
  - lia.
  - apply binary_round_aux_aligned; [|unfold prec, emax; lia].
    rewrite digits2_pos_iter_xO. unfold fexp, emin, prec, emax. lia.
Qed.

Lemma ofZ_finite (z : Z) :
  0 < z < 2 ^ 53 -> exists m e, ofZ z = S754_finite false m e.
Proof.
  destruct z as [|p|p]; try lia. intros [_ H].
  rewrite (ofZ_exact H). eauto.
Qed.

(** ** Signs survive rounding; nothing here produces NaN *)

Lemma signed_not_NaN (s : bool) (x : number) : signed s x -> isNaN x = false.
Proof. intros [->|[(m & e & ->)| ->]]; reflexivity. Qed.

Lemma positive_signed (x : number) : nonzero false x -> signed false x.
Proof. intros [H| ->]; [right; left; exact H|right; right; reflexivity]. Qed.

Lemma shr_fexp_nonneg (m e : Z) (l : location) :
  0 <= m -> 0 <= shr_m (fst (shr_fexp prec emax m e l)).
Proof.
  intro Hm. destruct (@shr_fexp_m m e l Hm) as [-> _].
  apply Z.div_pos; [exact Hm|]. apply Z.pow_pos_nonneg; lia.
Qed.

Lemma binary_round_aux_signed (s : bool) (m e : Z) (l : location) :
  0 <= m -> signed s (binary_round_aux prec emax s m e l).
Proof.
  intro Hm. unfold binary_round_aux.
  pose proof (@shr_fexp_nonneg m e l Hm) as H1.
  destruct (shr_fexp prec emax m e l) as [mrs' e']. cbn [fst] in H1.
  set (r := round_nearest_even (shr_m mrs') (loc_of_shr_record mrs')).
  assert (Hr : shr_m mrs' <= r <= shr_m mrs' + 1)
    by apply round_nearest_even_bounds.
  pose proof (@shr_fexp_nonneg r e' loc_Exact) as H2.
  destruct (shr_fexp prec emax r e' loc_Exact) as [mrs'' e''].
  cbn [fst] in H2.
  destruct (shr_m mrs'') as [|p|p].
  - left; reflexivity.
  - destruct (e'' <=? emax - prec);
      [right; left; eauto|right; right; reflexivity].
  - lia.
Qed.

Lemma binary_round_signed (s : bool) (m : positive) (e : Z) :
  signed s (binary_round prec emax s m e).
Proof.
  unfold binary_round.
  destruct (shl_align m e (fexp prec emax (Z.pos (digits2_pos m) + e))).
  apply binary_round_aux_signed. lia.
Qed.

(** A sum of non-negative numbers is a non-negative number. *)
Lemma add_signed (x y : number) :
  signed false x -> signed false y -> signed false (add x y).
Proof.
  intros [->|[(mx & ex & ->)| ->]] [->|[(my & ey & ->)| ->]];
    unfold add; cbn [SFadd];
    try (left; reflexivity);
    try (right; left; eauto; fail);
    try (right; right; reflexivity).
  cbn [cond_Zopp Z.add]. cbn [binary_normalize].
  apply binary_round_signed.
Qed.

(** A non-negative number times a positive finite one. *)
Lemma mul_finite_signed (x : number) (m : positive) (e : Z) :
  signed false x -> signed false (mul x (S754_finite false m e)).
Proof.
  intros [->|[(mx & ex & ->)| ->]]; unfold mul; cbn [SFmul xorb];
    try (left; reflexivity); try (right; right; reflexivity).
  apply binary_round_aux_signed. lia.
Qed.

Lemma SFdiv_core_binary_nonneg (m1 m2 : positive) (e1 e2 : Z) :
  0 <= fst (fst (SFdiv_core_binary prec emax (Z.pos m1) e1 (Z.pos m2) e2)).
Proof.
  unfold SFdiv_core_binary.
  set (s := e1 - e2 - _).
  set (m' := match s with Z.pos _ => Z.shiftl (Z.pos m1) s
                     | Z0 => Z.pos m1 | Z.neg _ => 0 end).
  assert (Hm' : 0 <= m').
  { subst m'. destruct s; try lia. apply Z.shiftl_nonneg. lia. }
  pose proof (Z.div_pos m' (Z.pos m2) Hm' ltac:(lia)) as Hq.
  unfold Z.div in Hq.
  destruct (Z.div_eucl m' (Z.pos m2)) as [q r]. exact Hq.
Qed.

(** A non-negative number over a positive finite one. *)
Lemma div_finite_signed (x : number) (m : positive) (e : Z) :
  signed false x -> signed false (div x (S754_finite false m e)).
Proof.
  intros [->|[(mx & ex & ->)| ->]]; unfold div; cbn [SFdiv xorb];
    try (left; reflexivity); try (right; right; reflexivity).
  pose proof (SFdiv_core_binary_nonneg mx m ex e) as H.
  destruct (SFdiv_core_binary prec emax (Z.pos mx) ex (Z.pos m) e)
    as [[mz ez] lz].
  apply binary_round_aux_signed. exact H.
Qed.

(** A finite number minus a non-negative one is a number. *)
Lemma sub_finite_not_NaN (s : bool) (m : positive) (e : Z) (x : number) :
  signed false x -> isNaN (sub (S754_finite s m e) x) = false.
Proof.
  intros [->|[(mx & ex & ->)| ->]]; unfold sub; cbn [SFsub];
    try reflexivity.
  destruct (_ - _) as [|p|p]; cbn [binary_normalize]; [reflexivity| |];
    eapply signed_not_NaN, binary_round_signed.
Qed.

(** ** Comparisons *)

Lemma SFcompare_antisym (x y : number) (c : comparison) :
  SFcompare x y = Some c -> SFcompare y x = Some (CompOpp c).
Proof.
  destruct x as [sx|sx| |sx mx ex], y as [sy|sy| |sy my ey];
    cbn [SFcompare]; try discriminate;
    try (destruct sx); try (destruct sy);
    intro H; inversion H; subst c; clear H; try reflexivity;
    rewrite (Z.compare_antisym ex ey);
    destruct (ex ?= ey); cbn [CompOpp]; try reflexivity;
    rewrite (Pos.compare_cont_antisym mx my Eq); reflexivity.
Qed.

Lemma SFcompare_total (x y : number) :
  isNaN x = false -> isNaN y = false -> exists c, SFcompare x y = Some c.
Proof.
  destruct x, y; cbn; try discriminate; eauto.
Qed.

End NumFacts.

(* ===================================================================== *)
(** * Strings and word counts *)
(* ===================================================================== *)

Lemma Str_eqb_eq (a b : jsstring) : Str.eqb a b = true <-> a = b.
Proof.
  unfold Str.eqb. destruct (list_eq_dec N.eq_dec a b); split; congruence.
Qed.

Lemma Str_eqb_refl (a : jsstring) : Str.eqb a a = true.
Proof. now apply Str_eqb_eq. Qed.

Lemma split_from_words (s : jsstring) :
  forall (in_sep : bool) (cur : jsstring),
    (in_sep = true -> cur = []) ->
    List.length (filter (fun w => (0 <? List.length w)%nat)
                   (Str.split_from in_sep cur s))
    = match cur with
      | [] => Spec.wordStarts true s
      | _ :: _ => S (Spec.wordStarts false s)
      end.
Proof.
  induction s as [|c s IH]; intros in_sep cur Hsep.
  - destruct cur; reflexivity.
  - cbn [Str.split_from Spec.wordStarts].
    destruct (Str.isWhiteSpace c).
    + destruct in_sep.
      * rewrite (Hsep eq_refl). now apply IH.
      * cbn [filter]. destruct cur as [|a cur].
        -- cbn. now apply IH.
        -- cbn. f_equal. now apply IH.
    + rewrite IH by discriminate.
      destruct cur as [|a cur]; cbn; [|reflexivity].
      destruct in_sep; [reflexivity|reflexivity].
Qed.

(** [text.split(/\s+/).filter(w => w.length > 0).length] counts the words
    of the text. *)
Lemma totalWords_wordCount (r : GrammarCheckResponse) :
  ScoreCard.totalWords r = Spec.wordCount (text r).
Proof.
  unfold ScoreCard.totalWords, Str.split_ws, Spec.wordCount.
  apply (@split_from_words (text r) false []). discriminate.
Qed.

Lemma wordStarts_le_length (s : jsstring) (prev_ws : bool) :
  (Spec.wordStarts prev_ws s <= List.length s)%nat.
Proof.
  revert prev_ws. induction s as [|c s IH]; intro prev_ws; [apply le_n|].
  cbn [Spec.wordStarts List.length].
  destruct (Str.isWhiteSpace c).
  - specialize (IH true). lia.
  - specialize (IH false). destruct prev_ws; lia.
Qed.

(* ===================================================================== *)
(** * The weight of one issue *)
(* ===================================================================== *)

Section Weights.
Context {host : Host}.

Lemma truthy_or_else (a b : option bool) :
  truthy (a ||| b) = truthy a || truthy b.
Proof. unfold or_else. destruct (truthy a) eqn:E; [exact E|reflexivity]. Qed.

Lemma truthy_Some (b : bool) : truthy (Some b) = b.
Proof. now destruct b. Qed.

(** What the card takes for an indication of a capitalization problem. *)
Lemma flagged_iff (i : GrammarIssue) :
  ScoreCard.flagged i = true <->
  Str.includes (toLowerCase (message i)) (Str.lit "capital") = true
  \/ Str.includes (toLowerCase (message i)) (Str.lit "nakamalaking titik")
     = true
  \/ exists rule, rule_id i = Some rule
       /\ (Str.includes rule (Str.lit "CAPITALIZATION") = true
           \/ Str.includes rule (Str.lit "PROPER_NOUN") = true
           \/ Str.includes rule (Str.lit "NAME_AFTER") = true).
Proof.
  unfold ScoreCard.flagged, ScoreCard.isCapitalizationIssue, opt_includes.
  rewrite !truthy_or_else. cbn [option_map]. rewrite !truthy_Some.
  destruct (rule_id i) as [rule|]; cbn [option_map];
    rewrite ?truthy_Some; cbn [truthy]; rewrite !orb_true_iff.
  - split.
    + intros [[[[H|H]|H]|H]|H]; eauto 8.
    + intros [H|[H|(rule' & E & H)]]; auto.
      inversion E; subst rule'. destruct H as [H|[H|H]]; auto.
  - split.
    + intros [[[[H|H]|H]|H]|H]; auto; discriminate.
    + intros [H|[H|(rule' & E & _)]]; auto. discriminate.
Qed.

Lemma typeOf_name (i : GrammarIssue) (t : Spec.IssueType) :
  Spec.typeOf i = Some t -> type i = Spec.IssueType_name t.
Proof.
  unfold Spec.typeOf. intro H. apply find_some in H. now apply Str_eqb_eq.
Qed.

Lemma severityOf_name (i : GrammarIssue) (s : Spec.Severity) :
  Spec.severityOf i = Some s -> severity i = Spec.Severity_name s.
Proof.
  unfold Spec.severityOf. intro H. apply find_some in H.
  now apply Str_eqb_eq.
Qed.

(** The table of the card is the weight table of the spec. *)
Lemma typeWeights_table (t : Spec.IssueType) :
  Val.or (Val.get ScoreCard.typeWeights (Spec.IssueType_name t))
         (Val.VNumber (Num.decimal 10 1))
  = Val.VNumber (Spec.typeWeight t).
Proof. destruct t; vm_compute; reflexivity. Qed.

Lemma typeWeightOf_flagged (i : GrammarIssue) :
  ScoreCard.flagged i = true ->
  ScoreCard.typeWeightOf i = Val.VNumber (Spec.typeWeight Spec.capitalization).
Proof.
  unfold ScoreCard.typeWeightOf, ScoreCard.flagged. now intros ->.
Qed.

Lemma typeWeightOf_nominal (i : GrammarIssue) (t : Spec.IssueType) :
  ScoreCard.flagged i = false -> Spec.typeOf i = Some t ->
  ScoreCard.typeWeightOf i = Val.VNumber (Spec.typeWeight t).
Proof.
  unfold ScoreCard.typeWeightOf, ScoreCard.flagged. intros -> Ht.
  rewrite (@typeOf_name i t Ht). apply typeWeights_table.
Qed.

Lemma applySeverity_multiplier (i : GrammarIssue) (s : Spec.Severity)
    (w : Val.value) :
  Spec.severityOf i = Some s ->
  ScoreCard.applySeverity i w
  = (Val.ToNumber w * Spec.severityMultiplier s)%num.
Proof.
  intro Hs. unfold ScoreCard.applySeverity.
  rewrite (@severityOf_name i s Hs). now destruct s.
Qed.

Lemma step_weight (i : GrammarIssue) (x sum : Num.number) :
  Spec.weight ScoreCard.flagged i = Some x ->
  ScoreCard.step sum i = (sum + x)%num.
Proof.
  unfold Spec.weight, ScoreCard.step.
  destruct (Spec.typeOf i) as [t|] eqn:Ht; [|discriminate].
  destruct (Spec.severityOf i) as [s|] eqn:Hs; [|discriminate].
  intro H; inversion H; subst x; clear H.
  rewrite (@applySeverity_multiplier i s _ Hs).
  destruct (ScoreCard.flagged i) eqn:F.
  - now rewrite (@typeWeightOf_flagged i F).
  - now rewrite (@typeWeightOf_nominal i t F Ht).
Qed.

Lemma weightedErrors_sum (iss : list GrammarIssue) :
  forall (ws : list Num.number) (acc : Num.number),
    Spec.weights (Spec.weight ScoreCard.flagged) iss = Some ws ->
    fold_left ScoreCard.step iss acc = fold_left Num.add ws acc.
Proof.
  induction iss as [|i iss IH]; intros ws acc H; cbn [Spec.weights] in H.
  - inversion H. reflexivity.
  - destruct (Spec.weight ScoreCard.flagged i) as [x|] eqn:Hx; [|discriminate].
    destruct (Spec.weights (Spec.weight ScoreCard.flagged) iss) as [xs|]
      eqn:Hxs;
      [|discriminate].
    inversion H; subst ws. cbn [fold_left].
    rewrite (@step_weight i x acc Hx). now apply IH.
Qed.

(** Every issue of the data model has a weight. *)
Lemma weights_defined (iss : list GrammarIssue) :
  Forall Spec.wellTyped iss ->
  exists ws, Spec.weights (Spec.weight ScoreCard.flagged) iss = Some ws.
Proof.
  induction 1 as [|i iss [Ht Hs] _ [ws IH]]; [now exists []|].
  cbn [Spec.weights]. unfold Spec.weight at 1.
  destruct (Spec.typeOf i) as [t|]; [|congruence].
  destruct (Spec.severityOf i) as [s|]; [|congruence].
  rewrite IH. eauto.
Qed.

End Weights.

(* ===================================================================== *)
(** * The score *)
(* ===================================================================== *)

Lemma cardScore_run (host : Host) (r : GrammarCheckResponse) :
  ScoreCard.cardScore r
  = Some (Ev.value (ScoreCard.score (issues r)
                      (Num.ofZ (Z.of_nat (Spec.wordCount (text r)))))).
Proof.
  unfold ScoreCard.cardScore, ScoreCard.GrammarScoreCard, ScoreCard.run.
  now rewrite totalWords_wordCount.
Qed.

(** With a positive word count the division is performed, once, and the
    score is the clamped expression. *)
Lemma score_positive (host : Host) (iss : list GrammarIssue)
    (n : Num.number) :
  Num.gt n Num.zero = true ->
  ScoreCard.score iss n
  = ([n], Spec.clamp (Num.ofZ 100
                      - (ScoreCard.weightedErrors iss / n) * Num.ofZ 100)%num
            Num.zero (Num.ofZ 100)).
Proof.
  intro Hn. unfold ScoreCard.score, ScoreCard.errorRate. rewrite Hn.
  reflexivity.
Qed.

(** Without a positive word count nothing is divided, and the score is
    100. *)
Lemma score_not_positive (host : Host) (iss : list GrammarIssue)
    (n : Num.number) :
  Num.gt n Num.zero = false ->
  ScoreCard.score iss n = ([], Num.ofZ 100).
Proof.
  intro Hn. unfold ScoreCard.score, ScoreCard.errorRate. rewrite Hn.
  vm_compute. reflexivity.
Qed.

(** X25.  No division by zero, whatever the result: every divisor is a
    positive number. *)
Lemma no_division_by_zero (host : Host) (iss : list GrammarIssue)
    (n d : Num.number) :
  In d (Ev.divisors (ScoreCard.score iss n)) -> Num.gt d Num.zero = true.
Proof.
  destruct (Num.gt n Num.zero) eqn:Hn.
  - rewrite (@score_positive host iss n Hn). cbn. intros [<-|[]]. exact Hn.
  - rewrite (@score_not_positive host iss n Hn). intros [].
Qed.

(** C1, as amended.  For every grammar check result whose text has at least
    one word and whose issues carry types and severities of the data model,
    the grammar score of the card is
    [clamp(100 - (sum of weights / wordCount) * 100, 0, 100)], the weight
    of an issue being [typeWeight(t) * severityMultiplier(severity)] with
    [t] the capitalization type for an issue flagged as a capitalization
    problem and its own type otherwise, the table spelling 2.0, grammar
    1.5, punctuation 0.8, style 0.6, capitalization 0.4, the multipliers
    error 1.2, warning 0.8, info 0.5, and [wordCount] the number of
    non-empty white-space-separated words of the text. *)
Theorem score_formula (host : Host) (r : GrammarCheckResponse)
    (g : Num.number) :
  (0 < Spec.wordCount (text r))%nat ->
  Spec.score (Spec.weight ScoreCard.flagged) r = Some g ->
  ScoreCard.cardScore r = Some g.
Proof.
  intros Hwords Hspec. rewrite cardScore_run. f_equal.
  unfold Spec.score in Hspec.
  destruct (Spec.weights (Spec.weight ScoreCard.flagged) (issues r))
    as [ws|] eqn:Hws;
    [|discriminate].
  cbn [option_map] in Hspec. inversion Hspec; subst g; clear Hspec.
  rewrite score_positive by (apply NumFacts.ofZ_gt_zero; lia).
  unfold Ev.value, Spec.formula, Spec.sum, ScoreCard.weightedErrors.
  cbn [snd]. now rewrite (@weightedErrors_sum host (issues r) ws _ Hws).
Qed.

(** The formula applies to every result of the data model. *)
Lemma score_defined (host : Host) (r : GrammarCheckResponse) :
  Forall Spec.wellTyped (issues r) ->
  exists g, Spec.score (Spec.weight ScoreCard.flagged) r = Some g.
Proof.
  intro H. destruct (@weights_defined host (issues r) H) as [ws Hws].
  unfold Spec.score. rewrite Hws. cbn. eauto.
Qed.

Lemma score_formula_witness :
  (0 < Spec.wordCount (text Sample.overlapping))%nat
  /\ Spec.score (Spec.weight (@ScoreCard.flagged asciiHost)) Sample.overlapping
     = Some (S754_finite false 8162774324609025 (-47))
  /\ @ScoreCard.cardScore asciiHost Sample.overlapping
     = Some (S754_finite false 8162774324609025 (-47)).
Proof.
  split; [vm_compute; lia|].
  split; [vm_compute; reflexivity|].
  apply score_formula; [vm_compute; lia|vm_compute; reflexivity].
Defined.

(** C1 as stated fails in two places.  On a text without words the card
    shows 100 where the formula, dividing by zero, gives 0; and an issue of
    type spelling whose message speaks of a capital letter weighs
    0.4 * 1.2, so that a one-word text scores 52 where the weight of its
    nominal type, 2.0 * 1.2, gives 0. *)
Lemma score_formula_as_stated_fails :
  (@ScoreCard.cardScore asciiHost Sample.wordless = Some (Num.ofZ 100)
   /\ Spec.score Spec.nominalWeight Sample.wordless = Some Num.zero)
  /\ (@ScoreCard.cardScore asciiHost Sample.capitalised = Some (Num.ofZ 52)
      /\ Spec.score Spec.nominalWeight Sample.capitalised = Some Num.zero)
  /\ ~ (forall (host : Host) r g,
          Spec.score Spec.nominalWeight r = Some g ->
          ScoreCard.cardScore r = Some g).
Proof.
  assert (H1 : @ScoreCard.cardScore asciiHost Sample.wordless
               = Some (Num.ofZ 100)
               /\ Spec.score Spec.nominalWeight Sample.wordless
                  = Some Num.zero)
    by (split; vm_compute; reflexivity).
  split; [exact H1|].
  split; [split; vm_compute; reflexivity|].
  intro H. destruct H1 as [Hc Hs].
  specialize (H asciiHost _ _ Hs). rewrite Hc in H. discriminate H.
Qed.





(** C6.  When the text has no word, the score is 100 whatever the issues
    are, and the evaluation performs no division. *)
Theorem wordless_text_scores_100 (host : Host) (r : GrammarCheckResponse) :
  Spec.wordCount (text r) = 0%nat ->
  ScoreCard.cardScore r = Some (Num.ofZ 100)
  /\ Ev.divisors (ScoreCard.run r) = [].
Proof.
  intro H0. rewrite cardScore_run. unfold ScoreCard.run.
  rewrite totalWords_wordCount, H0.
  now rewrite score_not_positive by reflexivity.
Qed.

Lemma wordless_text_scores_100_witness :
  Spec.wordCount (text Sample.wordless) = 0%nat
  /\ @ScoreCard.cardScore asciiHost Sample.wordless = Some (Num.ofZ 100)
  /\ Ev.divisors (@ScoreCard.run asciiHost Sample.wordless) = [].
Proof.
  split; [reflexivity|].
  apply (wordless_text_scores_100 asciiHost Sample.wordless). reflexivity.
Defined.

(** C5, as amended.  Two issues of types spelling and grammar, both of
    severity error and neither flagged as a capitalization problem, on a
    ten-word text: whether or not they overlap, each adds its full weight
    to the sum, and the score is the binary64 value of
    [100 - ((2.0*1.2 + 1.5*1.2) / 10 * 100)].  That value is
    58.00000000000001 (1.5*1.2 is 1.7999999999999998 and the sum
    4.199999999999999); the card shows it rounded, 58. *)
Theorem overlap_independence (host : Host) (r : GrammarCheckResponse)
    (i1 i2 : GrammarIssue) :
  issues r = [i1; i2] ->
  type i1 = Str.lit "spelling" -> type i2 = Str.lit "grammar" ->
  severity i1 = Str.lit "error" -> severity i2 = Str.lit "error" ->
  ScoreCard.flagged i1 = false -> ScoreCard.flagged i2 = false ->
  Spec.wordCount (text r) = 10%nat ->
  ScoreCard.weightedErrors (issues r)
  = (Num.zero + Num.decimal 20 1 * Num.decimal 12 1
     + Num.decimal 15 1 * Num.decimal 12 1)%num
  /\ ScoreCard.cardScore r
     = Some (Num.ofZ 100
             - (Num.decimal 20 1 * Num.decimal 12 1
                + Num.decimal 15 1 * Num.decimal 12 1) / Num.ofZ 10
               * Num.ofZ 100)%num
  /\ ScoreCard.cardScore r = Some (S754_finite false 8162774324609025 (-47))
  /\ option_map Num.Math_round (ScoreCard.cardScore r) = Some (Some 58).
Proof.
  intros Hiss Ht1 Ht2 Hs1 Hs2 F1 F2 Hwords.
  assert (Hsum : ScoreCard.weightedErrors (issues r)
                 = (Num.zero + Num.decimal 20 1 * Num.decimal 12 1
                    + Num.decimal 15 1 * Num.decimal 12 1)%num).
  { rewrite Hiss. unfold ScoreCard.weightedErrors. cbn [fold_left].
    unfold ScoreCard.step, ScoreCard.typeWeightOf, ScoreCard.applySeverity.
    unfold ScoreCard.flagged in F1, F2. rewrite F1, F2, Ht1, Ht2, Hs1, Hs2.
    vm_compute. reflexivity. }
  assert (Hscore : ScoreCard.cardScore r
                   = Some (S754_finite false 8162774324609025 (-47))).
  { rewrite cardScore_run, Hwords.
    rewrite score_positive by (vm_compute; reflexivity).
    cbn [Ev.value snd]. rewrite Hsum. vm_compute. reflexivity. }
  split; [exact Hsum|]. rewrite Hscore.
  repeat split; vm_compute; reflexivity.
Qed.

Lemma overlap_independence_witness :
  (* the two issues overlap: [3, 8) and [5, 12) *)
  (3 < 5 + 7 /\ 5 < 3 + 5)
  /\ @ScoreCard.cardScore asciiHost Sample.overlapping
     = Some (S754_finite false 8162774324609025 (-47))
  /\ option_map Num.Math_round
       (@ScoreCard.cardScore asciiHost Sample.overlapping)
     = Some (Some 58).
Proof.
  split; [lia|].
  eapply (@overlap_independence asciiHost Sample.overlapping);
    try (vm_compute; reflexivity).
Defined.

(** C5 as stated fails: on the ten-word text with the two overlapping
    issues the score is not the Number 58. *)
Lemma overlap_score_is_not_58 :
  @ScoreCard.cardScore asciiHost Sample.overlapping <> Some (Num.ofZ 58)
  /\ option_map (fun s => Num.strict_eq s (Num.ofZ 58))
       (@ScoreCard.cardScore asciiHost Sample.overlapping) = Some false
  /\ option_map (fun s => Num.gt s (Num.ofZ 58))
       (@ScoreCard.cardScore asciiHost Sample.overlapping) = Some true.
Proof.
  split; [vm_compute; discriminate|]. split; vm_compute; reflexivity.
Qed.

(* ===================================================================== *)
(** * Types outside the table, and the bounds of the score *)
(* ===================================================================== *)

Lemma own_typeWeights (k : jsstring) :
  Val.own ScoreCard.typeWeights k
  = option_map Spec.typeWeight
      (find (fun t => Str.eqb k (Spec.IssueType_name t))
         [Spec.spelling; Spec.grammar; Spec.punctuation; Spec.style;
          Spec.capitalization]).
Proof.
  unfold ScoreCard.typeWeights.
  cbn [Val.own find]. unfold Spec.IssueType_name.
  repeat match goal with
         | |- context [Str.eqb k ?x] => destruct (Str.eqb k x)
         end; reflexivity.
Qed.

(** A type the table does not list and no object inherits gets the weight
    1.0. *)
Lemma default_weight (host : Host) (i : GrammarIssue) :
  ScoreCard.flagged i = false -> Spec.typeOf i = None ->
  Val.inherited (type i) = false ->
  ScoreCard.typeWeightOf i = Val.VNumber (Num.decimal 10 1).
Proof.
  intros F Ht Hin. unfold ScoreCard.typeWeightOf. unfold ScoreCard.flagged in F.
  rewrite F. unfold Val.get. rewrite own_typeWeights.
  unfold Spec.typeOf in Ht. rewrite Ht. cbn [option_map]. now rewrite Hin.
Qed.

(** C9 fails on the code: an issue whose type is the name of a property
    every object inherits, such as [constructor], is not flagged, is of
    none of the five types, and reads a function out of the table
    instead of the default 1.0; the multiplication makes it NaN, and so
    is the score. *)
Theorem inherited_type_weight_is_NaN :
  @ScoreCard.flagged asciiHost Sample.inheritedType = false
  /\ Spec.typeOf Sample.inheritedType = None
  /\ @ScoreCard.typeWeightOf asciiHost Sample.inheritedType = Val.VObject
  /\ @ScoreCard.applySeverity Sample.inheritedType
       (@ScoreCard.typeWeightOf asciiHost Sample.inheritedType) = Num.NaN
  /\ @ScoreCard.cardScore asciiHost Sample.inheriting = Some Num.NaN.
Proof. repeat split; vm_compute; reflexivity. Qed.

Section Bounds.
Context {host : Host}.

Lemma typeWeightOf_finite (i : GrammarIssue) :
  ScoreCard.weighable i ->
  exists m e,
    Val.ToNumber (ScoreCard.typeWeightOf i) = S754_finite false m e.
Proof.
  unfold ScoreCard.weighable, ScoreCard.typeWeightOf, ScoreCard.flagged.
  destruct (truthy (ScoreCard.isCapitalizationIssue i)).
  - intros _. vm_compute. eauto.
  - intros [H|H]; [discriminate|]. unfold Val.get.
    rewrite own_typeWeights, H.
    destruct (find _ _) as [t|]; [destruct t|]; vm_compute; eauto.
Qed.

Lemma step_signed (sum : Num.number) (i : GrammarIssue) :
  Num.signed false sum -> ScoreCard.weighable i ->
  Num.signed false (ScoreCard.step sum i).
Proof.
  intros Hsum Hi. unfold ScoreCard.step. apply NumFacts.add_signed; [easy|].
  destruct (typeWeightOf_finite Hi) as (m & e & Hw).
  unfold ScoreCard.applySeverity. rewrite Hw.
  assert (Hx : Num.signed false (S754_finite false m e))
    by (right; left; eauto).
  destruct (Str.eqb _ _); [|destruct (Str.eqb _ _)];
    match goal with
    | |- context [Num.mul _ ?d] =>
        let v := eval vm_compute in d in change d with v
    end;
    now apply NumFacts.mul_finite_signed.
Qed.

Lemma weightedErrors_signed (iss : list GrammarIssue) :
  Forall ScoreCard.weighable iss ->
  Num.signed false (ScoreCard.weightedErrors iss).
Proof.
  unfold ScoreCard.weightedErrors.
  assert (H0 : Num.signed false Num.zero) by (left; reflexivity).
  revert H0. generalize Num.zero as acc.
  induction iss as [|i iss IH]; intros acc Hacc Hall; [exact Hacc|].
  cbn [fold_left]. inversion Hall; subst.
  apply IH; [now apply step_signed|assumption].
Qed.

Lemma ofZ_100 : Num.ofZ 100 = S754_finite false 7036874417766400 (-46).
Proof. vm_compute. reflexivity. Qed.

(** Clamping a number yields a number of the interval. *)
Lemma clamp_bounds (y : Num.number) :
  Num.isNaN y = false ->
  Num.le Num.zero (Spec.clamp y Num.zero (Num.ofZ 100)) = true
  /\ Num.le (Spec.clamp y Num.zero (Num.ofZ 100)) (Num.ofZ 100) = true.
Proof.
  intro Hy. rewrite ofZ_100. unfold Spec.clamp.
  set (h := S754_finite false 7036874417766400 (-46)).
  assert (Hmin : Num.Math_min h y = h
                 \/ Num.Math_min h y = y /\ SFcompare h y = Some Gt).
  { destruct y as [s|s| |s m e]; try discriminate;
      unfold Num.Math_min, h;
      match goal with
      | |- context [SFcompare ?a ?b] => destruct (SFcompare a b) as [[]|]
      end; auto. }
  destruct Hmin as [-> |[-> Hgt]]; [split; vm_compute; reflexivity|].
  assert (Hmax : Num.Math_max Num.zero y = Num.zero
                 \/ Num.Math_max Num.zero y = y
                    /\ SFcompare Num.zero y = Some Lt).
  { destruct y as [s|s| |s m e]; try discriminate;
      unfold Num.Math_max, Num.zero;
      match goal with
      | |- context [SFcompare ?a ?b] => destruct (SFcompare a b) as [[]|]
      end; auto. }
  destruct Hmax as [-> |[-> Hlt]]; [split; vm_compute; reflexivity|].
  unfold Num.le, SFleb. rewrite Hlt.
  now rewrite (NumFacts.SFcompare_antisym _ _ Hgt).
Qed.

(** The score is a number between 0 and 100 for every word count that is
    not the infinity, when no issue type is an inherited name. *)
Lemma score_bounds (iss : list GrammarIssue) (n : Num.number) :
  Forall ScoreCard.weighable iss -> n <> S754_infinity false ->
  Num.le Num.zero (Ev.value (ScoreCard.score iss n)) = true
  /\ Num.le (Ev.value (ScoreCard.score iss n)) (Num.ofZ 100) = true.
Proof.
  intros Hall Hn. destruct (Num.gt n Num.zero) eqn:Hgt.
  - rewrite score_positive by exact Hgt. cbn [Ev.value snd].
    apply clamp_bounds.
    apply NumFacts.gt_zero_iff in Hgt.
    destruct Hgt as [(m & e & ->)| ->]; [|congruence].
    rewrite ofZ_100. apply NumFacts.sub_finite_not_NaN.
    apply NumFacts.mul_finite_signed, NumFacts.div_finite_signed.
    now apply weightedErrors_signed.
  - rewrite score_not_positive by exact Hgt. split; vm_compute; reflexivity.
Qed.

(** X24.  The score of the card is a number between 0 and 100 for every
    text of a length a String can have (below 2^53 code units), when no
    issue type is an inherited name. *)
Lemma cardScore_bounds (r : GrammarCheckResponse) :
  Forall ScoreCard.weighable (issues r) ->
  Z.of_nat (List.length (text r)) < 2 ^ 53 ->
  exists g, ScoreCard.cardScore r = Some g
            /\ Num.le Num.zero g = true /\ Num.le g (Num.ofZ 100) = true.
Proof.
  intros Hall Hlen. rewrite cardScore_run. eexists. split; [reflexivity|].
  apply score_bounds; [exact Hall|].
  pose proof (wordStarts_le_length (text r) true) as Hle.
  fold (Spec.wordCount (text r)) in Hle.
  destruct (Spec.wordCount (text r)) as [|k] eqn:E; [discriminate|].
  destruct (@NumFacts.ofZ_finite (Z.of_nat (S k))) as (m & e & ->);
    [lia|discriminate].
Qed.

End Bounds.

(** C3 fails on the code.  With one word and one issue whose type is
    [constructor], the score is NaN: it is neither at least 0 nor at most
    100, and the card has no integer to show. *)
Theorem inherited_type_score_out_of_bounds :
  @ScoreCard.cardScore asciiHost Sample.inheriting = Some Num.NaN
  /\ Num.le Num.zero Num.NaN = false
  /\ Num.le Num.NaN (Num.ofZ 100) = false
  /\ option_map shownScore
       (@ScoreCard.GrammarScoreCard asciiHost (Some Sample.inheriting))
     = Some None.
Proof. repeat split; vm_compute; reflexivity. Qed.

(* ===================================================================== *)
(** * The two copies of the card *)
(* ===================================================================== *)

(** C10.  The two copies of GrammarScoreCard compute the same card, and so
    the same grammar score, from every input. *)
Theorem both_copies_agree (host : Host)
    (grammarResult : option GrammarCheckResponse) :
  ScoreCard.GrammarScoreCard grammarResult
  = ScoreCardCopy.GrammarScoreCard grammarResult.
Proof. destruct grammarResult as [r|]; reflexivity. Qed.

(* ===================================================================== *)
(** * The length guard of handleAnalyze *)
(* ===================================================================== *)

Section Guard.
Import Handler.

Lemma messages_differ : msg_empty <> msg_too_short.
Proof. vm_compute. discriminate. Qed.

Lemma is_none_true {A} (o : option A) : is_none o = true <-> o = None.
Proof. destruct o; split; simpl; congruence. Qed.

Lemma is_empty_length (s : jsstring) :
  is_empty s = true <-> List.length s = 0%nat.
Proof. destruct s; split; simpl; congruence. Qed.

(** The handler reports a text as too short exactly when no file is
    attached and the trimmed text has between 1 and 14 code units. *)
Lemma rejected_too_short_iff (st : State) :
  rejected_too_short (handleAnalyze st) <->
  selectedFile st = None
  /\ (0 < List.length (trimmedText st) < 15)%nat.
Proof.
  unfold rejected_too_short, handleAnalyze, trimmedText.
  set (t := Str.trim _).
  destruct (is_empty t) eqn:Ee, (is_none (selectedFile st)) eqn:En;
    cbn [andb app];
    try destruct (Nat.ltb_spec (List.length t) 15) as [Hlt|Hge];
    try destruct (isLoading st);
    try apply is_none_true in En;
    try apply is_empty_length in Ee;
    cbn [In];
    (split;
     [ intros H;
       repeat match goal with
              | H : _ \/ _ |- _ => destruct H as [H|H]
              | H : False |- _ => destruct H
              | H : _ = _ |- _ => solve [discriminate H]
              | H : setErrorMessage (Some _) = setErrorMessage (Some _)
                |- _ => injection H as H
              end;
       try (exfalso; apply messages_differ; assumption);
       try (split; [assumption|]);
       try (destruct t; [discriminate Ee|cbn in *; lia])
     | intros [Hf Hl];
       try (rewrite Hf in En; discriminate En);
       try lia; auto ]).
Qed.



End Guard.

(* ===================================================================== *)
(** * Language gating of the CEFR vocabulary *)
(* ===================================================================== *)

(** C8.  Whatever the lexicon and the words, classifying vocabulary in a
    language other than English, Filipino in particular, returns the empty
    result: the three groups are empty and every band counts 0. *)
Theorem classifyVocabulary_non_English (host : Host)
    (lexicon : jsstring -> option Spec.CEFRBand) (words : list jsstring)
    (language : Language) :
  language <> ENGLISH ->
  Spec.classifyVocabulary lexicon words language = Spec.emptyResult
  /\ basic (Spec.groups (Spec.classifyVocabulary lexicon words language))
     = []
  /\ independent
       (Spec.groups (Spec.classifyVocabulary lexicon words language)) = []
  /\ proficient
       (Spec.groups (Spec.classifyVocabulary lexicon words language)) = [].
Proof.
  intro H. destruct language; [congruence|]. repeat split.
Qed.

Lemma classifyVocabulary_non_English_witness :
  FILIPINO <> ENGLISH
  /\ @Spec.classifyVocabulary asciiHost Sample.lexicon Sample.words FILIPINO
     = Spec.emptyResult
  /\ proficient (Spec.groups (@Spec.classifyVocabulary asciiHost
                                Sample.lexicon Sample.words ENGLISH))
     = [Str.lit "ubiquitous"; Str.lit "paradigm"].
Proof.
  split; [discriminate|].
  split; [|vm_compute; reflexivity].
  apply (@classifyVocabulary_non_English asciiHost Sample.lexicon
           Sample.words FILIPINO).
  discriminate.
Defined.

(** What the sources themselves decide by the language: the second copy of
    the result panel hides the CEFR card of a text detected as ['tl'],
    whatever groups the diagnosis carries; the first copy shows them. *)
Lemma cefr_card_hidden_for_tl (groups : option CEFRWordGroups)
    (r : GrammarCheckResponse) :
  detected_language r = Str.lit "tl" ->
  CefrCard.shown_copy groups (Some r) = false
  /\ CefrCard.shown groups
     = match groups with Some _ => true | None => false end.
Proof.
  intro H. unfold CefrCard.shown_copy. rewrite H.
  destruct groups; split; reflexivity.
Qed.

(* ===================================================================== *)
(** * The definitions at work *)
(* ===================================================================== *)

(** The literals of the card, as binary64 values: 1.2 is
    0x3FF3333333333333 and 0.8 is 0x3FE999999999999A. *)
Example literal_1_2 :
  Num.decimal 12 1 = S754_finite false 0x13333333333333 (-52).
Proof. vm_compute. reflexivity. Qed.

Example literal_0_8 :
  Num.decimal 8 1 = S754_finite false 0x1999999999999a (-53).
Proof. vm_compute. reflexivity. Qed.

(** 1.5 * 1.2 falls one unit in the last place short of the Number 1.8,
    while 2.0 * 1.2 is the Number 2.4. *)
Example product_1_5_by_1_2 :
  (Num.decimal 15 1 * Num.decimal 12 1)%num
  = S754_finite false 0x1ccccccccccccc (-52)
  /\ Num.decimal 18 1 = S754_finite false 0x1ccccccccccccd (-52)
  /\ (Num.decimal 20 1 * Num.decimal 12 1)%num = Num.decimal 24 1.
Proof. repeat split; vm_compute; reflexivity. Qed.

(** The score of the overlapping pair is 58 + 2^-47. *)
Example overlapping_score_above_58 :
  Num.ofZ 58 = S754_finite false (58 * 2 ^ 47) (-47)
  /\ @ScoreCard.cardScore asciiHost Sample.overlapping
     = Some (S754_finite false (58 * 2 ^ 47 + 1) (-47)).
Proof. split; vm_compute; reflexivity. Qed.

(** The scenario of section 8: five words, a spelling error and a grammar
    warning score 28, exactly. *)
Example scenario_scores_28 :
  @ScoreCard.cardScore asciiHost
    (Sample.response "Teh cat is run fast."
       [ Sample.issue "spelling" "Possible spelling mistake found." "error"
           None 0 3;
         Sample.issue "grammar" "Wrong verb form." "warning" None 12 2 ])
  = Some (Num.ofZ 28).
Proof. vm_compute. reflexivity. Qed.

(** [split] keeps an empty piece for white space at either end, and the
    filter of the card drops it. *)
Example split_pieces :
  Str.split_ws (Str.lit " a  b ")
  = [Str.lit ""; Str.lit "a"; Str.lit "b"; Str.lit ""]
  /\ Str.split_ws (Str.lit "") = [Str.lit ""]
  /\ Spec.wordCount (Str.lit " a  b ") = 2%nat.
Proof. repeat split. Qed.

(** A rule identifier alone flags an issue, whatever its type. *)
Example flagged_by_rule :
  @ScoreCard.flagged asciiHost
    (Sample.issue "grammar" "Check this word." "warning"
       (Some "EN_PROPER_NOUN_CASE"%string) 0 1) = true.
Proof. vm_compute. reflexivity. Qed.

(** A type the table does not list weighs 1.0. *)
Example typography_weight :
  @ScoreCard.typeWeightOf asciiHost Sample.typography
  = Val.VNumber (Num.decimal 10 1).
Proof.
  apply default_weight; vm_compute; reflexivity.
Qed.


(* ===================================================================== *)
(** * Positions, searching and sorting *)
(* ===================================================================== *)

Module JsFacts.
Import Js.

Lemma firstn_firstn_skipn {A} (n m : nat) (l : list A) :
  firstn n l ++ firstn m (skipn n l) = firstn (n + m) l.
Proof.
  revert l. induction n as [|n IH]; intro l; [reflexivity|].
  destruct l as [|x l]; cbn [firstn skipn Nat.add app].
  - now rewrite firstn_nil.
  - now rewrite IH.
Qed.

Lemma len_nonneg (s : jsstring) : 0 <= len s.
Proof. unfold len. lia. Qed.

Lemma len_app (s t : jsstring) : len (s ++ t) = len s + len t.
Proof. unfold len. rewrite length_app. lia. Qed.

(** Two adjacent ranges make one. *)
Lemma range_app (s : jsstring) (a b c : Z) :
  0 <= a <= b -> b <= c -> range s a b ++ range s b c = range s a c.
Proof.
  intros Hab Hbc. unfold range.
  replace (Z.to_nat b) with (Z.to_nat (b - a) + Z.to_nat a)%nat by lia.
  rewrite <- skipn_skipn, firstn_firstn_skipn. f_equal. lia.
Qed.

Lemma range_all (s : jsstring) : range s 0 (len s) = s.
Proof.
  unfold range, len. cbn [Z.to_nat skipn].
  rewrite Z.sub_0_r, Nat2Z.id. apply firstn_all.
Qed.

Lemma range_empty (s : jsstring) (a : Z) : range s a a = [].
Proof. unfold range. now rewrite Z.sub_diag. Qed.

Lemma len_range (s : jsstring) (a b : Z) :
  0 <= a <= b -> b <= len s -> len (range s a b) = b - a.
Proof.
  intros Hab Hb. unfold range, len in *.
  rewrite length_firstn, length_skipn. lia.
Qed.

Lemma substring_range (s : jsstring) (a b : Z) :
  0 <= a <= b -> b <= len s -> substring s a b = range s a b.
Proof.
  intros Hab Hb. unfold substring, clamp. f_equal; lia.
Qed.

Lemma substring_from_range (s : jsstring) (a : Z) :
  0 <= a <= len s -> substring_from s a = range s a (len s).
Proof. intro Ha. unfold substring_from. apply substring_range; lia. Qed.

Lemma slice_range (s : jsstring) (a b : Z) :
  0 <= a <= b -> b <= len s -> slice s a b = range s a b.
Proof.
  intros Hab Hb. unfold slice, relative.
  destruct (Z.ltb_spec a 0), (Z.ltb_spec b 0); try lia. f_equal; lia.
Qed.

Lemma slice_from_range (s : jsstring) (a : Z) :
  0 <= a <= len s -> slice_from s a = range s a (len s).
Proof. intro Ha. unfold slice_from. apply slice_range; lia. Qed.

(** A range of a concatenation that lies in its first part. *)
Lemma range_app_l (s t : jsstring) (a b : Z) :
  0 <= a <= b -> b <= len s -> range (s ++ t) a b = range s a b.
Proof.
  intros Hab Hb. unfold range, len in *.
  rewrite skipn_app, firstn_app, length_skipn.
  replace (Z.to_nat (b - a) - (List.length s - Z.to_nat a))%nat
    with 0%nat by lia.
  cbn [firstn]. now rewrite app_nil_r.
Qed.

(** The rest of a concatenation from a position in its first part. *)
Lemma range_app_rest (s t : jsstring) (a : Z) :
  0 <= a <= len s ->
  range (s ++ t) a (len (s ++ t)) = range s a (len s) ++ t.
Proof.
  intro Ha. unfold range. rewrite len_app. unfold len in *.
  rewrite skipn_app.
  replace (Z.to_nat a - List.length s)%nat with 0%nat by lia.
  cbn [skipn].
  rewrite (@firstn_all2 _ _ (skipn (Z.to_nat a) s ++ t))
    by (rewrite length_app, length_skipn; lia).
  rewrite (@firstn_all2 _ _ (skipn (Z.to_nat a) s))
    by (rewrite length_skipn; lia).
  reflexivity.
Qed.

(** ** indexOf *)

Lemma startsWith_firstn (s needle : jsstring) :
  Str.startsWith s needle = true ->
  firstn (List.length needle) s = needle.
Proof.
  revert s. induction needle as [|n needle IH]; intros s H; [reflexivity|].
  destruct s as [|c s]; [discriminate|]. cbn in H.
  apply andb_true_iff in H. destruct H as [Hc H].
  apply N.eqb_eq in Hc. subst c. cbn [List.length firstn]. now rewrite IH.
Qed.

Lemma startsWith_length (s needle : jsstring) :
  Str.startsWith s needle = true ->
  (List.length needle <= List.length s)%nat.
Proof.
  intro H. rewrite <- (startsWith_firstn _ _ H) at 1.
  rewrite length_firstn. lia.
Qed.

Lemma search_found (s needle : jsstring) :
  forall k j, search s needle k = Some j ->
    (k <= j)%nat
    /\ Str.startsWith (skipn (j - k) s) needle = true
    /\ (j - k + List.length needle <= List.length s)%nat.
Proof.
  induction s as [|c s IH]; intros k j H; cbn [search] in H.
  - destruct (Str.startsWith [] needle) eqn:E; [|discriminate].
    inversion H; subst j. rewrite Nat.sub_diag. cbn [skipn].
    pose proof (startsWith_length _ _ E). repeat split; auto; lia.
  - destruct (Str.startsWith (c :: s) needle) eqn:E.
    + inversion H; subst j. rewrite Nat.sub_diag. cbn [skipn].
      pose proof (startsWith_length _ _ E). repeat split; auto; lia.
    + apply IH in H. destruct H as (Hk & Hs & Hl).
      replace (j - k)%nat with (S (j - S k)) by lia.
      cbn [skipn List.length]. repeat split; auto; lia.
Qed.

(** An occurrence found by [indexOf] lies at or after the position asked
    for (or the end of the string, if that comes first), within the
    string, and reads as the needle. *)
Lemma indexOf_found (s needle : jsstring) (position : Z) :
  indexOf s needle position <> -1 ->
  let k := indexOf s needle position in
  0 <= k /\ Z.min position (len s) <= k /\ k + len needle <= len s
  /\ range s k (k + len needle) = needle.
Proof.
  unfold indexOf. set (p := Z.to_nat (clamp (len s) position)).
  destruct (search (skipn p s) needle p) as [j|] eqn:E; [|congruence].
  intros _. cbn zeta.
  assert (Hp : (p <= List.length s)%nat)
    by (subst p; unfold clamp, len; lia).
  apply search_found in E. destruct E as (Hk & Hs & Hl).
  rewrite skipn_skipn in Hs. rewrite length_skipn in Hl.
  replace (j - p + p)%nat with j in Hs by lia.
  split; [lia|]. split; [subst p; unfold clamp, len in *; lia|].
  split; [unfold len; lia|].
  unfold range, len.
  replace (Z.to_nat (Z.of_nat j + Z.of_nat (List.length needle)
                     - Z.of_nat j)) with (List.length needle) by lia.
  rewrite Nat2Z.id. now apply startsWith_firstn.
Qed.

Lemma search_none_mono (s needle : jsstring) :
  forall k, search s needle k = None ->
    forall n k', search (skipn n s) needle k' = None.
Proof.
  induction s as [|c s IH]; intros k H n k'; cbn [search] in H.
  - destruct (Str.startsWith [] needle) eqn:E; [discriminate|].
    rewrite skipn_nil. cbn [search]. now rewrite E.
  - destruct (Str.startsWith (c :: s) needle) eqn:E; [discriminate|].
    destruct n as [|n]; cbn [skipn].
    + cbn [search]. rewrite E. exact (IH _ H 0%nat (S k')).
    + now apply (IH _ H).
Qed.

(** What is found from a position is found from the start. *)
Lemma indexOf_from_start (s needle : jsstring) (position : Z) :
  indexOf s needle position <> -1 -> indexOf s needle 0 <> -1.
Proof.
  unfold indexOf. intro H.
  destruct (search (skipn (Z.to_nat (clamp (len s) 0)) s) needle _)
    eqn:E; [lia|].
  exfalso. apply H.
  replace (Z.to_nat (clamp (len s) 0)) with 0%nat in E
    by (unfold clamp, len; lia).
  cbn [skipn] in E.
  now rewrite (@search_none_mono s needle 0%nat E).
Qed.

(** ** sort *)

Section Sorting.
Context {A : Type} (cmp : A -> A -> Z).

Lemma insert_perm (x : A) (l : list A) :
  Permutation (insert cmp x l) (x :: l).
Proof.
  induction l as [|y l IH]; cbn [insert]; [reflexivity|].
  destruct (0 <? cmp x y); [|reflexivity].
  rewrite IH. apply perm_swap.
Qed.

(** Sorting rearranges, and neither drops nor repeats. *)
Lemma sort_perm (l : list A) : Permutation (sort cmp l) l.
Proof.
  induction l as [|x l IH]; cbn [sort fold_right]; [reflexivity|].
  fold (sort cmp l). rewrite insert_perm. now constructor.
Qed.

End Sorting.

End JsFacts.

(* ===================================================================== *)
(** * The segments of the editor *)
(* ===================================================================== *)

Module EditorFacts.
Import Editor.

Lemma shownText_app (a b : list Segment) :
  shownText (a ++ b) = shownText a ++ shownText b.
Proof. unfold shownText. apply flat_map_app. Qed.

Lemma carried_app (a b : list Segment) :
  carried (a ++ b) = carried a ++ carried b.
Proof. unfold carried. apply flat_map_app. Qed.

Lemma carriedDiag_app (a b : list Segment) :
  carriedDiag (a ++ b) = carriedDiag a ++ carriedDiag b.
Proof. unfold carriedDiag. apply flat_map_app. Qed.

(** ** The grammar highlights *)

Lemma pushHighlight_carried (t : jsstring) (hs : list GrammarIssue) :
  forall segs pos,
    carried (fst (fold_left (pushHighlight t) hs (segs, pos)))
    = carried segs ++ hs.
Proof.
  induction hs as [|h hs IH]; intros segs pos; cbn [fold_left].
  - cbn [fst]. now rewrite app_nil_r.
  - unfold pushHighlight at 2. rewrite IH.
    destruct (offset h >? pos); rewrite !carried_app; cbn;
      rewrite ?app_nil_r, <- ?app_assoc; reflexivity.
Qed.

(** X1.  Every grammar issue gets one highlighted segment of its own,
    whether or not it overlaps another or lies within the text: the
    issues the segments carry are the issues given, in the order of their
    offsets. *)
Theorem every_grammar_issue_highlighted (t : jsstring)
    (grammarIssues : list GrammarIssue) :
  carried (grammarSegments t (Some grammarIssues))
  = grammarHighlights (Some grammarIssues)
  /\ Permutation (carried (grammarSegments t (Some grammarIssues)))
       grammarIssues.
Proof.
  assert (H : carried (grammarSegments t (Some grammarIssues))
              = grammarHighlights (Some grammarIssues)).
  { unfold grammarSegments.
    pose proof (pushHighlight_carried t
                  (grammarHighlights (Some grammarIssues)) [] 0) as H.
    destruct (fold_left _ _ _) as [segs pos]. cbn [fst] in H.
    destruct (pos <? Js.len t); [rewrite carried_app|]; rewrite H; cbn;
      now rewrite ?app_nil_r. }
  split; [exact H|]. rewrite H. apply JsFacts.sort_perm.
Qed.

Lemma pushHighlight_laidOut (t : jsstring) (hs : list GrammarIssue) :
  forall segs pos,
    0 <= pos -> laidOut t pos hs ->
    shownText segs = Js.range t 0 pos ->
    let '(segs', pos') := fold_left (pushHighlight t) hs (segs, pos) in
    pos <= pos' <= Js.len t /\ shownText segs' = Js.range t 0 pos'.
Proof.
  unfold laidOut.
  induction hs as [|h hs IH]; intros segs pos Hpos Hlaid Hshown;
    cbn [fold_left laidOutTo] in *.
  - split; [lia|exact Hshown].
  - destruct Hlaid as (Ho & Hl & Hrest).
    assert (Hend : offset h + length h <= Js.len t).
    { clear - Hrest. revert Hrest.
      generalize (offset h + length h) as p.
      induction hs as [|h' hs IH']; intro p; cbn [laidOutTo]; [lia|].
      intros (Ho' & Hl' & Hrest'). specialize (IH' _ Hrest'). lia. }
    unfold pushHighlight at 2.
    specialize (IH
      ((if offset h >? pos
        then segs ++ [plain (Js.substring t pos (offset h))] else segs)
       ++ [ {| text := Js.substring t (offset h) (offset h + length h);
               grammarIssue := Some h; diagIssue := None |} ])
      (offset h + length h)).
    destruct (fold_left _ hs _) as [segs' pos'].
    destruct IH as [Hle Hs]; [lia|exact Hrest| |split; [lia|exact Hs]].
    rewrite shownText_app. unfold shownText at 2. cbn [flat_map text].
    rewrite app_nil_r.
    destruct (Z.gtb_spec (offset h) pos) as [Hgt|Hle].
    + rewrite shownText_app, Hshown. unfold shownText.
      cbn [flat_map text plain].
      rewrite app_nil_r, !JsFacts.substring_range by lia.
      rewrite !JsFacts.range_app by lia. reflexivity.
    + replace (offset h) with pos by lia.
      rewrite Hshown, JsFacts.substring_range, JsFacts.range_app by lia.
      reflexivity.
Qed.

(** X2.  When the grammar issues, in the order of their offsets, lie in
    the text one after the other, the segments read as the text: nothing
    is lost and nothing is shown twice. *)
Theorem grammar_segments_read_as_text (t : jsstring)
    (grammarIssues : option (list GrammarIssue)) :
  laidOut t 0 (grammarHighlights grammarIssues) ->
  shownText (grammarSegments t grammarIssues) = t.
Proof.
  intro Hlaid. unfold grammarSegments.
  pose proof (@pushHighlight_laidOut t (grammarHighlights grammarIssues)
                [] 0 ltac:(lia) Hlaid) as H.
  destruct (fold_left _ _ _) as [segs pos].
  destruct H as [Hpos Hs]; [now rewrite JsFacts.range_empty|].
  destruct (Z.ltb_spec pos (Js.len t)) as [Hlt|Hge].
  - rewrite shownText_app, Hs. unfold shownText. cbn [flat_map text plain].
    rewrite app_nil_r, JsFacts.substring_from_range by lia.
    rewrite JsFacts.range_app by lia. apply JsFacts.range_all.
  - rewrite Hs. replace pos with (Js.len t) by lia. apply JsFacts.range_all.
Qed.


(** ** The issues of the diagnosis *)

Lemma pushIssue_reads (t : jsstring) (issues : list Diag.GrammarIssue) :
  forall segs searchFrom,
    0 <= searchFrom <= Js.len t ->
    shownText segs = Js.range t 0 searchFrom ->
    let '(segs', searchFrom') :=
      fold_left (pushIssue t) issues (segs, searchFrom) in
    0 <= searchFrom' <= Js.len t
    /\ shownText segs' = Js.range t 0 searchFrom'.
Proof.
  induction issues as [|i issues IH]; intros segs sf Hsf Hshown;
    cbn [fold_left]; [now split|].
  unfold pushIssue at 2.
  destruct (Z.eqb_spec (Js.indexOf t (Diag.original i) sf) (-1)) as [E|E];
    [now apply IH|].
  destruct (JsFacts.indexOf_found _ _ _ E) as (Hk0 & Hk & Hke & Hr).
  set (k := Js.indexOf t (Diag.original i) sf) in *.
  pose proof (JsFacts.len_nonneg (Diag.original i)) as Hlo.
  apply IH; [lia|].
  rewrite shownText_app. unfold shownText at 2. cbn [flat_map text].
  rewrite app_nil_r.
  destruct (Z.gtb_spec k sf) as [Hgt|Hle].
  - rewrite shownText_app, Hshown. unfold shownText.
    cbn [flat_map text plain].
    rewrite app_nil_r, JsFacts.substring_range by lia.
    rewrite <- Hr at 1. rewrite !JsFacts.range_app by lia. reflexivity.
  - replace sf with k in Hshown by lia.
    rewrite Hshown. rewrite <- Hr at 1.
    rewrite JsFacts.range_app by lia. reflexivity.
Qed.

Lemma diagnosisSegments_shown (t : jsstring)
    (issues : list Diag.GrammarIssue) :
  shownText (diagnosisSegments t issues) = t.
Proof.
  unfold diagnosisSegments.
  pose proof (@pushIssue_reads t
    (Js.sort (fun a b => Js.indexOf t (Diag.original a) 0
                         - Js.indexOf t (Diag.original b) 0) issues)
    [] 0) as H.
  destruct (fold_left _ _ _) as [segs sf].
  destruct H as [Hsf Hs];
    [pose proof (JsFacts.len_nonneg t); lia
    |now rewrite JsFacts.range_empty|].
  destruct (Z.ltb_spec sf (Js.len t)) as [Hlt|Hge].
  - rewrite shownText_app, Hs. unfold shownText. cbn [flat_map text plain].
    rewrite app_nil_r, JsFacts.substring_from_range by lia.
    rewrite JsFacts.range_app by lia. apply JsFacts.range_all.
  - rewrite Hs. replace sf with (Js.len t) by lia. apply JsFacts.range_all.
Qed.

Lemma splitWords_from_concat (s : jsstring) :
  forall in_word cur,
    List.concat (splitWords_from in_word cur s) = cur ++ s.
Proof.
  induction s as [|c s IH]; intros in_word cur; cbn [splitWords_from].
  - destruct in_word; cbn; now rewrite ?app_nil_r.
  - destruct (Bool.eqb (isWordChar c) in_word).
    + rewrite IH. now rewrite <- app_assoc.
    + cbn [List.concat]. now rewrite IH.
Qed.

Section WithHost.
Context {host : Host}.

(** The parts into which a text is split make up the text. *)
Lemma parts_make_text (proficientWords : option (list jsstring))
    (segmentText : jsstring) :
  flat_map partText
    (renderWithProficientHighlight proficientWords segmentText)
  = segmentText.
Proof.
  unfold renderWithProficientHighlight.
  rewrite flat_map_concat_map, map_map.
  rewrite (map_ext _ (fun part => part)).
  - rewrite map_id. unfold splitWords.
    now rewrite splitWords_from_concat.
  - intro part. now destruct (existsb _ _).
Qed.

(** X4.  Marking the proficient words changes no character: the parts of
    a segment, read in order, are the text of the segment, whatever the
    list of proficient words; and a part is marked only when its lower
    case is the lower case of a proficient word. *)
Theorem proficient_highlight_keeps_text
    (proficientWords : option (list jsstring)) (segmentText : jsstring) :
  flat_map partText
    (renderWithProficientHighlight proficientWords segmentText)
  = segmentText
  /\ forall part,
       In (Proficient part)
          (renderWithProficientHighlight proficientWords segmentText) ->
       exists word,
         proficientWords <> None
         /\ In word match proficientWords with Some l => l | None => [] end
         /\ toLowerCase part = toLowerCase word.
Proof.
  split; [apply parts_make_text|].
  intros part H. unfold renderWithProficientHighlight in H.
  apply in_map_iff in H. destruct H as (p & Hp & _).
  destruct (existsb _ _) eqn:E; [|discriminate].
  inversion Hp; subst p. apply existsb_exists in E.
  destruct E as (w & Hw & Heq). apply Str_eqb_eq in Heq.
  apply in_map_iff in Hw. destruct Hw as (word & <- & Hword).
  exists word. destruct proficientWords; [|destruct Hword].
  repeat split; [discriminate|exact Hword|exact Heq].
Qed.

Lemma displayed_shown (proficientWords : option (list jsstring))
    (segs : list Segment) :
  flat_map (displayed proficientWords) segs = shownText segs.
Proof.
  unfold shownText. apply flat_map_ext. intro seg. unfold displayed.
  destruct (grammarIssue seg), (diagIssue seg); try reflexivity.
  apply parts_make_text.
Qed.

(** X5.  Without grammar issues, none given or an empty list, the editor
    displays the text, character for character, whatever the issues of
    the diagnosis are and whatever words are marked as proficient. *)
Theorem diagnosis_rendering_displays_text
    (proficientWords : option (list jsstring)) (t : jsstring)
    (issues : list Diag.GrammarIssue) :
  flat_map (displayed proficientWords) (segments t issues None) = t
  /\ flat_map (displayed proficientWords) (segments t issues (Some [])) = t.
Proof.
  split; rewrite displayed_shown; cbn [segments];
    apply diagnosisSegments_shown.
Qed.

End WithHost.

Lemma pushIssue_carried (t : jsstring) (issues : list Diag.GrammarIssue) :
  forall segs searchFrom i,
    In i (carriedDiag
            (fst (fold_left (pushIssue t) issues (segs, searchFrom)))) ->
    In i (carriedDiag segs)
    \/ In i issues /\ Js.indexOf t (Diag.original i) 0 <> -1.
Proof.
  induction issues as [|j issues IH]; intros segs sf i H;
    cbn [fold_left] in H; [now left|].
  destruct (pushIssue t (segs, sf) j) as [segs1 sf1] eqn:P.
  apply IH in H. destruct H as [H|[H1 H2]]; [|right; split; [now right|easy]].
  unfold pushIssue in P.
  destruct (Z.eqb_spec (Js.indexOf t (Diag.original j) sf) (-1)) as [E|E];
    inversion P; subst segs1 sf1; clear P; [now left|].
  rewrite carriedDiag_app in H. apply in_app_or in H.
  destruct H as [H|H].
  - left. destruct (_ >? _); [|exact H].
    rewrite carriedDiag_app in H. apply in_app_or in H.
    destruct H as [H|H]; [exact H|destruct H].
  - cbn in H. destruct H as [<-|[]].
    right. split; [now left|]. now apply JsFacts.indexOf_from_start in E.
Qed.

(** X6.  Among the issues of a diagnosis only those are highlighted whose
    original text occurs in the text: an issue whose original is not
    found gets no segment, and no segment carries an issue that was not
    given. *)
Theorem only_found_issues_highlighted (t : jsstring)
    (issues : list Diag.GrammarIssue) (i : Diag.GrammarIssue) :
  In i (carriedDiag (diagnosisSegments t issues)) ->
  In i issues /\ Js.indexOf t (Diag.original i) 0 <> -1.
Proof.
  unfold diagnosisSegments. intro H.
  pose proof (@pushIssue_carried t
    (Js.sort (fun a b => Js.indexOf t (Diag.original a) 0
                         - Js.indexOf t (Diag.original b) 0) issues)
    [] 0 i) as P.
  destruct (fold_left _ _ _) as [segs sf]. cbn [fst] in P.
  assert (Hin : In i (carriedDiag segs)).
  { destruct (sf <? Js.len t); [|exact H].
    rewrite carriedDiag_app in H. apply in_app_or in H.
    destruct H as [H|H]; [exact H|destruct H]. }
  destruct (P Hin) as [[]|[H1 H2]]. split; [|exact H2].
  eapply Permutation_in; [apply JsFacts.sort_perm|exact H1].
Qed.

Lemma grammar_segments_read_as_text_witness :
  laidOut Cases.apartText 0
    (grammarHighlights (Some Cases.apartIssues))
  /\ shownText (grammarSegments Cases.apartText
                  (Some Cases.apartIssues))
     = Cases.apartText.
Proof.
  assert (H : laidOut Cases.apartText 0
                (grammarHighlights (Some Cases.apartIssues)))
    by (vm_compute; repeat split; discriminate).
  split; [exact H|].
  exact (@grammar_segments_read_as_text Cases.apartText
           (Some Cases.apartIssues) H).
Defined.


Lemma only_found_issues_highlighted_witness :
  In Cases.wat
     (carriedDiag (diagnosisSegments Cases.apartText
                     [Cases.teh; Cases.wat]))
  /\ In Cases.wat [Cases.teh; Cases.wat]
  /\ Js.indexOf Cases.apartText (Diag.original Cases.wat) 0 <> -1.
Proof.
  assert (H : In Cases.wat
                (carriedDiag (diagnosisSegments Cases.apartText
                                [Cases.teh; Cases.wat])))
    by (vm_compute; left; reflexivity).
  split; [exact H|].
  exact (@only_found_issues_highlighted Cases.apartText
           [Cases.teh; Cases.wat] Cases.wat H).
Defined.

End EditorFacts.

(* ===================================================================== *)
(** * highlightIssues *)
(* ===================================================================== *)

Module ServiceFacts.
Import Service.

Lemma laidOutTo_bound (stop : Z) (hs : list GrammarIssue) :
  forall pos, laidOutTo stop pos hs -> pos <= stop.
Proof.
  induction hs as [|h hs IH]; intros pos H; cbn [laidOutTo] in H; [exact H|].
  destruct H as (Ho & Hl & Hrest). specialize (IH _ Hrest). lia.
Qed.

Lemma laidOutTo_snoc (stop : Z) (d : GrammarIssue)
    (hs : list GrammarIssue) :
  forall pos, laidOutTo stop pos (hs ++ [d]) ->
    laidOutTo (offset d) pos hs /\ 0 <= length d
    /\ offset d + length d <= stop.
Proof.
  induction hs as [|h hs IH]; intros pos H; cbn [app laidOutTo] in *.
  - tauto.
  - destruct H as (Ho & Hl & Hrest). apply IH in Hrest. tauto.
Qed.

(** A range of the start of a string is a range of the string. *)
Lemma range_range (s : jsstring) (p a b : Z) :
  0 <= a <= b -> b <= p -> p <= Js.len s ->
  Js.range (Js.range s 0 p) a b = Js.range s a b.
Proof.
  intros Hab Hb Hp.
  rewrite <- (JsFacts.range_all s) at 2.
  rewrite <- (@JsFacts.range_app s 0 p (Js.len s)) by lia.
  rewrite JsFacts.range_app_l; [reflexivity|lia|].
  rewrite JsFacts.len_range; lia.
Qed.

Lemma markedUp_snoc (s : jsstring) (d : GrammarIssue)
    (asc : list GrammarIssue) :
  0 <= length d -> offset d + length d <= Js.len s ->
  forall pos, 0 <= pos -> laidOutTo (offset d) pos asc ->
    markedUp s pos (asc ++ [d])
    = markedUp (Js.range s 0 (offset d)) pos asc
      ++ mark d (Js.range s (offset d) (offset d + length d))
      ++ Js.range s (offset d + length d) (Js.len s).
Proof.
  intros Hl Hend.
  induction asc as [|i asc IH]; intros pos Hpos Hlaid;
    cbn [app markedUp laidOutTo] in *.
  - rewrite JsFacts.len_range by lia. rewrite Z.sub_0_r.
    rewrite range_range by lia. reflexivity.
  - destruct Hlaid as (Ho & Hli & Hrest).
    pose proof (laidOutTo_bound _ _ _ Hrest) as Hb.
    rewrite IH by (auto; lia).
    rewrite !range_range by lia.
    rewrite <- !app_assoc. reflexivity.
Qed.

Lemma highlight_fold (ds : list GrammarIssue) :
  forall s R,
    laidOutTo (Js.len s) 0 (rev ds) ->
    fold_left highlightStep ds (s ++ R) = markedUp s 0 (rev ds) ++ R.
Proof.
  induction ds as [|d ds IH]; intros s R Hlaid; cbn [fold_left rev] in *.
  - cbn [markedUp]. now rewrite JsFacts.range_all.
  - apply laidOutTo_snoc in Hlaid. destruct Hlaid as (Hlaid & Hl & Hend).
    pose proof (laidOutTo_bound _ _ _ Hlaid) as Ho.
    pose proof (JsFacts.len_nonneg R) as HR.
    unfold highlightStep.
    rewrite !JsFacts.slice_range, JsFacts.slice_from_range
      by (rewrite ?JsFacts.len_app; lia).
    rewrite !JsFacts.range_app_l, JsFacts.range_app_rest by lia.
    rewrite IH by (rewrite JsFacts.len_range by lia; now rewrite Z.sub_0_r).
    rewrite markedUp_snoc by (auto; lia).
    rewrite <- !app_assoc. reflexivity.
Qed.

(** X7.  When the issues, in the order of the text, lie in the text one
    after the other, [highlightIssues], which works from the last issue
    back to the first on a text that grows, yields the text read from
    left to right with each issue marked where it lies in the original
    text: no mark shifts the place of another. *)
Theorem highlightIssues_marks_in_place (t : jsstring)
    (issues : list GrammarIssue) :
  laidOut t 0 (inTextOrder issues) ->
  highlightIssues t issues = markedUp t 0 (inTextOrder issues).
Proof.
  intro Hlaid. unfold highlightIssues.
  pose proof (@highlight_fold (sortedIssues issues) t [] Hlaid) as H.
  now rewrite !app_nil_r in H.
Qed.

Lemma highlightIssues_marks_in_place_witness :
  laidOut Cases.apartText 0 (inTextOrder Cases.apartIssues)
  /\ highlightIssues Cases.apartText Cases.apartIssues
     = markedUp Cases.apartText 0 (inTextOrder Cases.apartIssues).
Proof.
  assert (H : laidOut Cases.apartText 0
                (inTextOrder Cases.apartIssues))
    by (vm_compute; repeat split; discriminate).
  split; [exact H|].
  exact (@highlightIssues_marks_in_place Cases.apartText
           Cases.apartIssues H).
Defined.

End ServiceFacts.

(* ===================================================================== *)
(** * Suggestions and escaping in the grammar checker *)
(* ===================================================================== *)

Module CheckerFacts.
Import Checker.

(** X8.  Applying a suggestion replaces the range of the issue and nothing
    else: what precedes the range and what follows it stay as they are. *)
Theorem applySuggestion_replaces_range (before old after : jsstring)
    (issue : GrammarIssue) (suggestion : jsstring) :
  offset issue = Js.len before -> length issue = Js.len old ->
  applySuggestion (before ++ old ++ after) issue suggestion
  = before ++ suggestion ++ after.
Proof.
  intros Ho Hl. unfold applySuggestion.
  pose proof (JsFacts.len_nonneg before). pose proof (JsFacts.len_nonneg old).
  pose proof (JsFacts.len_nonneg after).
  rewrite Ho, Hl.
  rewrite JsFacts.slice_range, JsFacts.slice_from_range
    by (rewrite ?JsFacts.len_app; lia).
  f_equal; [|f_equal].
  - rewrite JsFacts.range_app_l by lia. apply JsFacts.range_all.
  - rewrite app_assoc, <- JsFacts.len_app.
    pose proof (JsFacts.len_nonneg (before ++ old)).
    rewrite JsFacts.range_app_rest by lia.
    now rewrite JsFacts.range_empty.
Qed.


Lemma In_replaceAll (x c : Str.code_unit) (rep s : jsstring) :
  In c (Js.replaceAll x rep s) -> In c s /\ c <> x \/ In c rep.
Proof.
  unfold Js.replaceAll. intro H. apply in_flat_map in H.
  destruct H as (y & Hy & Hc). destruct (N.eqb_spec y x) as [E|E].
  - now right.
  - destruct Hc as [<-|[]]. left. now split.
Qed.

(** X10.  What [escapeHtml] returns contains none of the characters
    [<], [>], the double quote and the single quote. *)
Theorem escapeHtml_has_no_markup (unsafe : jsstring) (c : Str.code_unit) :
  In c (escapeHtml unsafe) ->
  c <> 60%N /\ c <> 62%N /\ c <> 34%N /\ c <> 39%N.
Proof.
  unfold escapeHtml. intro H.
  apply In_replaceAll in H. destruct H as [[H H39]|H].
  2:{ cbn in H. repeat (destruct H as [<-|H]; [repeat split; discriminate|]).
      destruct H. }
  apply In_replaceAll in H. destruct H as [[H H34]|H].
  2:{ cbn in H. repeat (destruct H as [<-|H]; [repeat split; discriminate|]).
      destruct H. }
  apply In_replaceAll in H. destruct H as [[H H62]|H].
  2:{ cbn in H. repeat (destruct H as [<-|H]; [repeat split; discriminate|]).
      destruct H. }
  apply In_replaceAll in H. destruct H as [[H H60]|H].
  2:{ cbn in H. repeat (destruct H as [<-|H]; [repeat split; discriminate|]).
      destruct H. }
  auto.
Qed.

Lemma applySuggestion_replaces_range_witness :
  applySuggestion (Str.lit "He go home") Cases.verb (Str.lit "goes")
  = Str.lit "He goes home".
Proof.
  exact (@applySuggestion_replaces_range (Str.lit "He ") (Str.lit "go")
           (Str.lit " home") Cases.verb (Str.lit "goes")
           eq_refl eq_refl).
Defined.


Lemma escapeHtml_has_no_markup_witness :
  In 38%N (escapeHtml (Str.lit "<b>"))
  /\ 38%N <> 60%N /\ 38%N <> 62%N /\ 38%N <> 34%N /\ 38%N <> 39%N.
Proof.
  assert (H : In 38%N (escapeHtml (Str.lit "<b>")))
    by (vm_compute; left; reflexivity).
  split; [exact H|].
  exact (@escapeHtml_has_no_markup (Str.lit "<b>") 38%N H).
Defined.

End CheckerFacts.

(* ===================================================================== *)
(** * The result panel: accepting a suggestion, titles, colours *)
(* ===================================================================== *)

Module PanelFacts.
Import Panel.

Lemma firstn_startsWith (needle s : jsstring) :
  firstn (List.length needle) s = needle -> Str.startsWith s needle = true.
Proof.
  revert s. induction needle as [|n needle IH]; intros s H;
    [now destruct s|].
  destruct s as [|c s]; [discriminate|]. cbn [List.length firstn] in H.
  inversion H; subst. cbn [Str.startsWith]. rewrite N.eqb_refl. cbn.
  rewrite H2. now apply IH.
Qed.

(** An occurrence at distance [p] is found, and nothing later is. *)
Lemma search_le (needle : jsstring) :
  forall (p : nat) (s : jsstring) (k : nat),
    Str.startsWith (skipn p s) needle = true ->
    exists j, Js.search s needle k = Some j /\ (j <= k + p)%nat.
Proof.
  induction p as [|p IH]; intros s k H.
  - cbn [skipn] in H. exists k. destruct s; cbn [Js.search]; rewrite H;
      split; auto; lia.
  - destruct s as [|c s].
    + cbn [skipn] in H. exists k. cbn [Js.search]. rewrite H. split; auto; lia.
    + cbn [skipn] in H. cbn [Js.search].
      destruct (Str.startsWith (c :: s) needle).
      * exists k. split; auto; lia.
      * destruct (IH s (S k) H) as (j & Hj & Hle). exists j. split; auto; lia.
Qed.

(** [indexOf] returns the first occurrence. *)
Lemma indexOf_first (s needle : jsstring) (p : Z) :
  0 <= p -> Js.range s p (p + Js.len needle) = needle ->
  Js.indexOf s needle 0 <> -1 /\ Js.indexOf s needle 0 <= p.
Proof.
  intros Hp H. unfold Js.indexOf.
  replace (Z.to_nat (Js.clamp (Js.len s) 0)) with 0%nat
    by (unfold Js.clamp, Js.len; lia).
  cbn [skipn]. unfold Js.range in H.
  replace (Z.to_nat (p + Js.len needle - p)) with (List.length needle) in H
    by (unfold Js.len; lia).
  apply firstn_startsWith in H.
  destruct (search_le needle (Z.to_nat p) s 0 H) as (j & -> & Hj). lia.
Qed.

(** A replacement text without dollar sign stands for itself. *)
Lemma substitution_plain (matched before after rep : jsstring) :
  ~ In 36%N rep -> Js.substitution matched before after rep = rep.
Proof.
  induction rep as [|c rep IH]; intro H; [reflexivity|].
  assert (Hc : c <> 36%N) by (intro E; apply H; left; now rewrite E).
  assert (Hr : ~ In 36%N rep) by (intro E; apply H; now right).
  specialize (IH Hr).
  transitivity (c :: Js.substitution matched before after rep);
    [|now rewrite IH].
  clear - Hc. destruct c as [|q]; [reflexivity|].
  do 6 (try (destruct q as [q|q|]; try reflexivity)).
  now contradiction Hc.
Qed.

(** X11.  Accepting a suggestion without dollar sign replaces the first
    occurrence of the original in the text, and nothing else. *)
Theorem accept_replaces_first_occurrence (before after : jsstring)
    (issue : Diag.GrammarIssue) :
  (forall j, 0 <= j < Js.len before ->
     Js.range (before ++ Diag.original issue ++ after) j
              (j + Js.len (Diag.original issue))
     <> Diag.original issue) ->
  ~ In 36%N (Diag.suggestion issue) ->
  acceptedText (before ++ Diag.original issue ++ after) issue
  = before ++ Diag.suggestion issue ++ after.
Proof.
  set (o := Diag.original issue). set (t := before ++ o ++ after).
  intros Hfirst Hplain.
  pose proof (JsFacts.len_nonneg before) as Hb.
  pose proof (JsFacts.len_nonneg o) as Ho.
  pose proof (JsFacts.len_nonneg after) as Ha.
  assert (Hlen : Js.len t = Js.len before + Js.len o + Js.len after)
    by (unfold t; rewrite !JsFacts.len_app; lia).
  assert (Hocc : Js.range t (Js.len before) (Js.len before + Js.len o) = o).
  { unfold t. rewrite app_assoc.
    pose proof (JsFacts.len_nonneg (before ++ o)).
    rewrite JsFacts.range_app_l by (rewrite ?JsFacts.len_app; lia).
    rewrite <- JsFacts.len_app, JsFacts.range_app_rest by lia.
    now rewrite JsFacts.range_empty. }
  destruct (@indexOf_first t o _ Hb Hocc) as [Hfound Hle].
  destruct (@JsFacts.indexOf_found t o 0 Hfound) as (H0 & _ & _ & Hat).
  assert (Hk : Js.indexOf t o 0 = Js.len before).
  { destruct (Z_lt_le_dec (Js.indexOf t o 0) (Js.len before)) as [Hlt|Hge];
      [|lia].
    exfalso. apply (Hfirst (Js.indexOf t o 0)); [lia|exact Hat]. }
  unfold acceptedText, Js.replace. fold o. fold t. rewrite Hk.
  destruct (Z.eqb_spec (Js.len before) (-1)); [lia|].
  rewrite substitution_plain by exact Hplain.
  f_equal; [|f_equal].
  - unfold t. rewrite JsFacts.range_app_l by lia. apply JsFacts.range_all.
  - unfold t at 2. unfold t. rewrite app_assoc, <- JsFacts.len_app.
    pose proof (JsFacts.len_nonneg (before ++ o)).
    rewrite JsFacts.range_app_rest by lia.
    now rewrite JsFacts.range_empty.
Qed.

(** X12.  A text in which the original does not occur, at no place where
    it would fit, stays as it is when the suggestion is accepted. *)
Theorem accept_without_occurrence (currentText : jsstring)
    (issue : Diag.GrammarIssue) :
  (forall j, 0 <= j ->
     j + Js.len (Diag.original issue) <= Js.len currentText ->
     Js.range currentText j (j + Js.len (Diag.original issue))
     <> Diag.original issue) ->
  acceptedText currentText issue = currentText.
Proof.
  intro Hnone. unfold acceptedText, Js.replace.
  destruct (Z.eqb_spec (Js.indexOf currentText (Diag.original issue) 0) (-1))
    as [E|E]; [reflexivity|].
  exfalso.
  destruct (@JsFacts.indexOf_found currentText (Diag.original issue) 0 E)
    as (H0 & _ & Hin & Hat).
  exact (Hnone _ H0 Hin Hat).
Qed.

Lemma In_dropWhile (p : Str.code_unit -> bool) (c : Str.code_unit)
    (s : jsstring) :
  In c s -> p c = false -> In c (Str.dropWhile p s).
Proof.
  intros Hin Hp. induction s as [|x s IH]; [destruct Hin|].
  cbn [Str.dropWhile]. destruct (p x) eqn:E; [|exact Hin].
  destruct Hin as [->|Hin]; [congruence|auto].
Qed.

(** A string with a code unit that is no white space is not blank. *)
Lemma trim_keeps (c : Str.code_unit) (s : jsstring) :
  In c s -> Str.isWhiteSpace c = false -> In c (Str.trim s).
Proof.
  intros Hin Hc. unfold Str.trim.
  rewrite <- in_rev. apply In_dropWhile; [|exact Hc].
  rewrite <- in_rev. now apply In_dropWhile.
Qed.

Lemma dropWhile_incl (p : Str.code_unit -> bool) (c : Str.code_unit)
    (s : jsstring) :
  In c (Str.dropWhile p s) -> In c s.
Proof.
  induction s as [|x s IH]; [auto|]. cbn [Str.dropWhile].
  destruct (p x); [right; auto|auto].
Qed.

Lemma dropWhile_head (p : Str.code_unit -> bool) (s : jsstring) :
  match Str.dropWhile p s with [] => True | c :: _ => p c = false end.
Proof.
  induction s as [|x s IH]; [exact I|]. cbn [Str.dropWhile].
  destruct (p x) eqn:E; [exact IH|exact E].
Qed.

(** What a string that is not blank contains. *)
Lemma not_blank (s : jsstring) :
  Str.trim s <> [] ->
  exists c, In c s /\ Str.isWhiteSpace c = false.
Proof.
  unfold Str.trim. intro H.
  pose proof (dropWhile_head Str.isWhiteSpace
                (rev (Str.dropWhile Str.isWhiteSpace s))) as Hh.
  destruct (Str.dropWhile Str.isWhiteSpace
              (rev (Str.dropWhile Str.isWhiteSpace s))) as [|c r] eqn:E;
    [now contradiction H|].
  exists c. split; [|exact Hh].
  apply (dropWhile_incl Str.isWhiteSpace). rewrite in_rev.
  apply (dropWhile_incl Str.isWhiteSpace). rewrite E. now left.
Qed.

(** X13.  The title of a saved analysis is never blank and has at most 63
    code units, whatever the analysed text is. *)
Theorem title_never_blank (analyzedText : jsstring) :
  Str.trim (title analyzedText) <> [] /\ Js.len (title analyzedText) <= 63.
Proof.
  unfold title.
  set (firstLine := match find _ _ with Some l => _ | None => _ end).
  assert (Hf : exists c, In c firstLine /\ Str.isWhiteSpace c = false).
  { unfold firstLine.
    destruct (find _ _) as [line|] eqn:E.
    - apply find_some in E. destruct E as [_ E]. apply Nat.ltb_lt in E.
      assert (Hne : Str.trim line <> [])
        by (intro Z; rewrite Z in E; cbn in E; lia).
      destruct line as [|c line]; [now contradiction Hne|].
      cbn [Handler.str_or]. now apply not_blank.
    - exists 85%N. split; [now left|reflexivity]. }
  destruct (Z.ltb_spec 60 (Js.len firstLine)) as [Hlong|Hshort].
  - split.
    + intro Z.
      assert (Hin : In 46%N (Str.trim (Js.slice firstLine 0 60
                                        ++ Str.lit "...")))
        by (apply trim_keeps; [apply in_or_app; right; now left|reflexivity]).
      rewrite Z in Hin. destruct Hin.
    + rewrite JsFacts.len_app, JsFacts.slice_range by lia.
      rewrite JsFacts.len_range by lia. cbn. lia.
  - split; [|lia]. destruct Hf as (c & Hin & Hc). intro Z.
    pose proof (trim_keeps _ _ Hin Hc) as Hk. rewrite Z in Hk. destruct Hk.
Qed.

Lemma split_from_line (sep : Str.code_unit) (l : jsstring) :
  ~ In sep l ->
  forall cur rest,
    Js.split_from sep cur (l ++ sep :: rest)
    = (cur ++ l) :: Js.split_from sep [] rest.
Proof.
  induction l as [|c l IH]; intros H cur rest; cbn [app Js.split_from].
  - now rewrite N.eqb_refl, app_nil_r.
  - destruct (N.eqb_spec c sep) as [E|E]; [exfalso; apply H; now left|].
    rewrite IH by (intro Z; apply H; now right).
    now rewrite <- app_assoc.
Qed.

Lemma split_from_end (sep : Str.code_unit) (l : jsstring) :
  ~ In sep l -> forall cur, Js.split_from sep cur l = [cur ++ l].
Proof.
  induction l as [|c l IH]; intros H cur; cbn [Js.split_from].
  - now rewrite app_nil_r.
  - destruct (N.eqb_spec c sep) as [E|E]; [exfalso; apply H; now left|].
    rewrite IH by (intro Z; apply H; now right).
    now rewrite <- app_assoc.
Qed.

(** X14.  The title is the first line that is not blank, as it stands,
    when that line has at most 60 code units. *)
Theorem title_is_first_line (blank : list jsstring)
    (line rest : jsstring) :
  Forall (fun l => Str.trim l = [] /\ ~ In 10%N l) blank ->
  Str.trim line <> [] -> ~ In 10%N line -> Js.len line <= 60 ->
  hd 10%N rest = 10%N ->
  title (List.concat (map (fun l => l ++ [10%N]) blank) ++ line ++ rest)
  = line.
Proof.
  intros Hblank Hline Hnl Hlen Hrest. unfold title.
  assert (Hfind :
    find (fun l => (0 <? List.length (Str.trim l))%nat)
         (Js.split
            (List.concat (map (fun l => l ++ [10%N]) blank) ++ line ++ rest)
            10%N)
    = Some line).
  { unfold Js.split. induction Hblank as [|l blank [Hl Hn] _ IH].
    - cbn [map List.concat app].
      assert (Hp : (0 <? List.length (Str.trim line))%nat = true)
        by (apply Nat.ltb_lt; destruct (Str.trim line);
            [now contradiction Hline|cbn; lia]).
      destruct rest as [|c rest].
      + rewrite app_nil_r, split_from_end by exact Hnl.
        cbn [app find]. now rewrite Hp.
      + cbn [hd] in Hrest. subst c.
        rewrite split_from_line by exact Hnl. cbn [app find]. now rewrite Hp.
    - cbn [map List.concat]. rewrite <- !app_assoc. cbn [app].
      rewrite split_from_line by exact Hn. cbn [app find]. rewrite Hl.
      cbn [List.length Nat.ltb Nat.leb]. exact IH. }
  rewrite Hfind.
  assert (Hne : line <> []) by (intro Z; subst line; now apply Hline).
  destruct line as [|c line]; [now contradiction Hne|].
  cbn [Handler.str_or].
  destruct (Z.ltb_spec 60 (Js.len (c :: line))); [lia|reflexivity].
Qed.

(** A comparison of three numbers. *)
Lemma le_trans (a b c : Num.number) :
  Num.le a b = true -> Num.le b c = true -> Num.le a c = true.
Proof.
  unfold Num.le, SFleb.
  destruct a as [sa|sa| |sa ma ea], b as [sb|sb| |sb mb eb],
           c as [sc|sc| |sc mc ec];
    cbn [SFcompare]; try discriminate; try reflexivity;
    try (destruct sa); try (destruct sb); try (destruct sc);
    try discriminate; try reflexivity.
  all: destruct (Z.compare_spec ea eb); try discriminate;
       destruct (Z.compare_spec eb ec); try discriminate;
       destruct (Z.compare_spec ea ec); try reflexivity; try lia; subst;
       rewrite ?Pos.compare_cont_spec; cbn [Pos.switch_Eq CompOpp];
       destruct (Pos.compare_spec ma mb); try discriminate;
       destruct (Pos.compare_spec mb mc); try discriminate;
       destruct (Pos.compare_spec ma mc); try reflexivity; try lia.
Qed.

(** X15.  A higher score never has a worse colour: the four colours of the
    score card follow the order of the scores. *)
Theorem better_score_no_worse_colour (s1 s2 : Num.number) :
  Num.le s1 s2 = true ->
  (rank (getScoreColor s1) <= rank (getScoreColor s2))%nat.
Proof.
  intro H. unfold getScoreColor.
  destruct (Num.le (Num.ofZ 90) s1) eqn:A1;
    [rewrite (le_trans _ _ _ A1 H); vm_compute; lia|].
  destruct (Num.le (Num.ofZ 75) s1) eqn:B1;
    [rewrite (le_trans _ _ _ B1 H);
     destruct (Num.le (Num.ofZ 90) s2); vm_compute; lia|].
  destruct (Num.le (Num.ofZ 60) s1) eqn:C1;
    [rewrite (le_trans _ _ _ C1 H)|];
    destruct (Num.le (Num.ofZ 90) s2); try (vm_compute; lia);
    destruct (Num.le (Num.ofZ 75) s2); try (vm_compute; lia);
    destruct (Num.le (Num.ofZ 60) s2); vm_compute; lia.
Qed.

(** X16.  A result without issues has the green card, whatever its text
    is. *)
Theorem clean_result_is_green (host : Host) (r : GrammarCheckResponse) :
  issues r = [] -> cardColors r = green.
Proof.
  intro H. unfold cardColors, ScoreCard.run. rewrite H.
  destruct (Num.gt (Num.ofZ (Z.of_nat (ScoreCard.totalWords r))) Num.zero)
    eqn:G.
  - rewrite score_positive by exact G.
    apply NumFacts.gt_zero_iff in G.
    cbn [Ev.value snd ScoreCard.weightedErrors fold_left].
    destruct G as [(m & e & ->)| ->]; vm_compute; reflexivity.
  - now rewrite score_not_positive by exact G.
Qed.

(** X17.  The errors and the warnings a card counts are different issues:
    together they are no more than the issues of the result, and as many
    when every issue is an error or a warning. *)
Theorem counts_within_issues (host : Host) (r : GrammarCheckResponse)
    (card : Card) :
  ScoreCard.GrammarScoreCard (Some r) = Some card ->
  (errorCount card + warningCount card <= List.length (issues r))%nat
  /\ (Forall (fun i => severity i = Str.lit "error"
                       \/ severity i = Str.lit "warning") (issues r)
      -> (errorCount card + warningCount card
          = List.length (issues r))%nat).
Proof.
  intro H. cbn [ScoreCard.GrammarScoreCard] in H. inversion H; subst card.
  clear H. cbn [errorCount warningCount]. unfold ScoreCard.count_severity.
  induction (issues r) as [|i iss [IH1 IH2]]; [split; auto|].
  cbn [filter List.length].
  destruct (Str.eqb (severity i) (Str.lit "error")) eqn:E,
           (Str.eqb (severity i) (Str.lit "warning")) eqn:W.
  - apply Str_eqb_eq in E, W. rewrite E in W. discriminate.
  - cbn [List.length]. split; [lia|]. intro F. inversion F; subst.
    specialize (IH2 H2). lia.
  - cbn [List.length]. split; [lia|]. intro F. inversion F; subst.
    specialize (IH2 H2). lia.
  - split; [lia|]. intro F. inversion F; subst.
    destruct H1 as [S|S]; apply Str_eqb_eq in S; congruence.
Qed.

(** X18.  From a data URL, a header and a payload joined by a comma, the
    uploads keep the payload up to its first comma; a result without comma
    gives nothing. *)
Theorem base64Of_payload (header payload : jsstring) :
  ~ In 44%N header ->
  (~ In 44%N payload ->
   base64Of (header ++ 44%N :: payload) = Some payload)
  /\ base64Of header = None.
Proof.
  intro Hh. unfold base64Of, Js.split. split.
  - intro Hp. rewrite split_from_line by exact Hh.
    now rewrite split_from_end by exact Hp.
  - now rewrite split_from_end by exact Hh.
Qed.

Lemma accept_replaces_first_occurrence_witness :
  acceptedText (Str.lit "He go wat wat") Cases.wat
  = Str.lit "He go what wat".
Proof.
  apply (@accept_replaces_first_occurrence (Str.lit "He go ")
           (Str.lit " wat") Cases.wat).
  - intros j Hj.
    assert (E : j = 0 \/ j = 1 \/ j = 2 \/ j = 3 \/ j = 4 \/ j = 5)
      by (unfold Js.len in Hj; simpl in Hj; lia).
    repeat (destruct E as [->|E]; [vm_compute; discriminate|]).
    subst j. vm_compute. discriminate.
  - vm_compute. intuition discriminate.
Defined.

Lemma accept_without_occurrence_witness :
  acceptedText (Str.lit "He go") Cases.teh = Str.lit "He go".
Proof.
  apply (@accept_without_occurrence (Str.lit "He go") Cases.teh).
  intros j H0 Hj.
  assert (E : j = 0 \/ j = 1 \/ j = 2) by (unfold Js.len in Hj; simpl in Hj; lia).
  repeat (destruct E as [->|E]; [vm_compute; discriminate|]).
  subst j. vm_compute. discriminate.
Defined.

Lemma title_is_first_line_witness :
  title (Str.lit "
  
The cat sleeps.
It purrs.")
  = Str.lit "The cat sleeps.".
Proof.
  apply (@title_is_first_line [[]; Str.lit "  "] (Str.lit "The cat sleeps.")
           (10%N :: Str.lit "It purrs.")).
  - repeat constructor; vm_compute; intuition discriminate.
  - vm_compute. discriminate.
  - vm_compute. intuition discriminate.
  - vm_compute. discriminate.
  - reflexivity.
Defined.

Lemma better_score_no_worse_colour_witness :
  Num.le (Num.ofZ 62) (Num.decimal 905 1) = true
  /\ (rank (getScoreColor (Num.ofZ 62))
      <= rank (getScoreColor (Num.decimal 905 1)))%nat.
Proof.
  split; [vm_compute; reflexivity|].
  apply (@better_score_no_worse_colour (Num.ofZ 62) (Num.decimal 905 1)).
  vm_compute. reflexivity.
Defined.

Lemma clean_result_is_green_witness :
  @cardColors asciiHost (Sample.response "The cat sleeps." []) = green.
Proof.
  apply (@clean_result_is_green asciiHost
           (Sample.response "The cat sleeps." [])).
  reflexivity.
Defined.

Lemma counts_within_issues_witness :
  (2 + 0 <= List.length (issues Sample.overlapping))%nat.
Proof.
  exact (proj1 (@counts_within_issues asciiHost Sample.overlapping
                  {| grammarScore :=
                       Ev.value (@ScoreCard.run asciiHost
                                   Sample.overlapping);
                     shownScore :=
                       Num.Math_round
                         (Ev.value (@ScoreCard.run asciiHost
                                      Sample.overlapping));
                     errorCount := 2; warningCount := 0 |}
                  eq_refl)).
Defined.

Lemma base64Of_payload_witness :
  base64Of (Str.lit "data:image/png;base64,iVBORw0KGgo=")
  = Some (Str.lit "iVBORw0KGgo=").
Proof.
  apply (proj1 (@base64Of_payload (Str.lit "data:image/png;base64")
                  (Str.lit "iVBORw0KGgo=")
                  ltac:(vm_compute; intuition discriminate))).
  vm_compute. intuition discriminate.
Defined.

End PanelFacts.

(* ===================================================================== *)
(** * The recent analyses *)
(* ===================================================================== *)

Module AppFacts.
Import App.
Section Cache.
Variables Diagnosis Complexity : Type.
#[local] Abbreviation CachedAnalysis := (CachedAnalysis Diagnosis Complexity).
#[local] Abbreviation State := (State Diagnosis Complexity).
#[local] Abbreviation action := (action Diagnosis Complexity).

(** X19.  The list of recent analyses never grows beyond 20 entries,
    whatever is saved and deleted. *)
Theorem recent_analyses_at_most_20 (actions : list action) (st : State) :
  (List.length (recentAnalyses st) <= 20)%nat ->
  (List.length (recentAnalyses (fold_left (@perform _ _) actions st))
   <= 20)%nat.
Proof.
  revert st. induction actions as [|a actions IH]; intros st H; [exact H|].
  cbn [fold_left]. apply IH. destruct a as [analysis|i]; cbn [perform].
  - unfold handleSaveAnalysis. cbn [recentAnalyses].
    rewrite length_firstn. lia.
  - unfold handleDeleteAnalysis. cbn [recentAnalyses].
    pose proof (filter_length_le
                  (fun a => negb (Str.eqb (id a) i)) (recentAnalyses st)).
    lia.
Qed.

Lemma saves_shift (analysis : CachedAnalysis) :
  forall (later : list CachedAnalysis) (st : State) (n : nat),
    nth_error (recentAnalyses st) n = Some analysis ->
    (n + List.length later < 20)%nat ->
    nth_error
      (recentAnalyses
         (fold_left (@perform _ _) (map (@Save _ _) later) st))
      (n + List.length later)
    = Some analysis.
Proof.
  induction later as [|b later IH]; intros st n Hn Hlt.
  - cbn [List.length map fold_left]. now rewrite Nat.add_0_r.
  - cbn [List.length map fold_left perform] in *.
    replace (n + S (List.length later))%nat
      with (S n + List.length later)%nat by lia.
    apply IH; [|lia].
    unfold handleSaveAnalysis. cbn [recentAnalyses].
    rewrite nth_error_firstn.
    destruct (Nat.ltb_spec (S n) 20); [exact Hn|lia].
Qed.

(** X20.  A saved analysis stays in the list while fewer than 20 analyses
    are saved after it: it is the entry after the later ones. *)
Theorem saved_analysis_kept (analysis : CachedAnalysis)
    (later : list CachedAnalysis) (st : State) :
  (List.length later < 20)%nat ->
  nth_error
    (recentAnalyses
       (fold_left (@perform _ _) (map (@Save _ _) later)
                  (handleSaveAnalysis analysis st)))
    (List.length later)
  = Some analysis.
Proof.
  intro H.
  apply (@saves_shift analysis later (handleSaveAnalysis analysis st) 0%nat);
    [reflexivity|lia].
Qed.

(** X21.  Deleting by id removes the analyses of that id and no other: an
    analysis is listed afterwards exactly when it was listed and has
    another id; and the analysis selected afterwards is the one selected
    before, of another id. *)
Theorem deleted_analysis_gone (i : jsstring) (st : State)
    (a : CachedAnalysis) :
  (In a (recentAnalyses (handleDeleteAnalysis i st))
   <-> In a (recentAnalyses st) /\ id a <> i)
  /\ (selectedAnalysis (handleDeleteAnalysis i st) = Some a ->
      selectedAnalysis st = Some a /\ id a <> i).
Proof.
  unfold handleDeleteAnalysis. cbn [recentAnalyses selectedAnalysis]. split.
  - rewrite filter_In. split; intros [H1 H2]; split; auto.
    + intro E. apply Str_eqb_eq in E. now rewrite E in H2.
    + destruct (Str.eqb (id a) i) eqn:E; [|reflexivity].
      apply Str_eqb_eq in E. contradiction.
  - destruct (selectedAnalysis st) as [prev|]; [|discriminate].
    destruct (Str.eqb (id prev) i) eqn:E; [discriminate|].
    intro H. inversion H; subst. split; [reflexivity|].
    intro Z. apply Str_eqb_eq in Z. congruence.
Qed.

End Cache.

Lemma recent_analyses_at_most_20_witness :
  (List.length
     (App.recentAnalyses
        (fold_left (@App.perform unit unit)
           [App.Save Cases.first; App.Save Cases.second;
            App.Delete unit unit (App.id Cases.first)]
           Cases.noAnalyses))
   <= 20)%nat.
Proof.
  apply (@recent_analyses_at_most_20 unit unit). simpl. lia.
Defined.

Lemma saved_analysis_kept_witness :
  nth_error
    (App.recentAnalyses
       (fold_left (@App.perform unit unit)
          (map (@App.Save unit unit) [Cases.second])
          (App.handleSaveAnalysis Cases.first Cases.noAnalyses)))
    1
  = Some Cases.first.
Proof.
  apply (@saved_analysis_kept unit unit Cases.first [Cases.second]
           Cases.noAnalyses).
  simpl. lia.
Defined.

End AppFacts.

(* ===================================================================== *)
(** * What the handler sends and reports *)
(* ===================================================================== *)

Module HandlerFacts.
Import Handler.

(** X22.  The handler sends requests exactly when it is not loading and
    either a file is attached or the trimmed text has 15 code units or
    more: an attached file makes up for a text that is short or missing.
    It then sends the three requests, each with the text as typed, not
    trimmed. *)
Theorem requests_sent_iff (st : State) :
  (filter is_request (handleAnalyze st) <> [] <->
   isLoading st = false
   /\ (selectedFile st <> None
       \/ (15 <= List.length (trimmedText st))%nat))
  /\ (filter is_request (handleAnalyze st) = []
      \/ filter is_request (handleAnalyze st) = requests st).
Proof.
  unfold handleAnalyze, trimmedText, requests.
  set (t := Str.trim _).
  destruct (selectedFile st) as [f|] eqn:Ef, (is_empty t) eqn:Ee,
           (Nat.ltb_spec (List.length t) 15) as [Hlt|Hge],
           (isLoading st) eqn:El;
    try apply is_empty_length in Ee;
    cbn [is_none andb app filter is_request option_map];
    (split; [split; [intro H|intros [H1 [H2|H2]]]|auto]);
    try congruence; try lia; try discriminate;
    try (split; [reflexivity|]); try (left; discriminate); try (right; lia).
Qed.

(** X23.  The handler asks for a text or a document exactly when no file
    is attached and the text is blank, whatever its length; it then
    neither reports the text as too short nor sends a request. *)
Theorem blank_text_reported_missing (st : State) :
  (In (setErrorMessage (Some msg_empty)) (handleAnalyze st) <->
   selectedFile st = None /\ trimmedText st = [])
  /\ (In (setErrorMessage (Some msg_empty)) (handleAnalyze st) ->
      ~ rejected_too_short (handleAnalyze st)
      /\ filter is_request (handleAnalyze st) = []).
Proof.
  assert (Hiff : In (setErrorMessage (Some msg_empty)) (handleAnalyze st) <->
                 selectedFile st = None /\ trimmedText st = []).
  { unfold handleAnalyze, trimmedText.
    set (t := Str.trim _).
    assert (Hd : msg_empty <> msg_too_short) by (vm_compute; discriminate).
    destruct (selectedFile st) as [f|]; cbn [is_none andb];
      rewrite ?andb_false_r, ?andb_true_r; cbn [app In].
    - split; [|intros [H _]; discriminate].
      destruct (isLoading st); cbn [In]; intro H;
        repeat (destruct H as [H|H]; try discriminate H); destruct H.
    - destruct t as [|c t']; cbn [is_empty In].
      + split; auto.
      + split; [|intros [_ H]; discriminate].
        destruct (List.length (c :: t') <? 15)%nat;
          [|destruct (isLoading st)]; cbn [In]; intro H;
          repeat (destruct H as [H|H]; try discriminate H);
          try destruct H; try (inversion H; congruence). }
  split; [exact Hiff|].
  intro H. apply Hiff in H. destruct H as [Hf Ht]. split.
  - intro R. apply rejected_too_short_iff in R. destruct R as [_ [H0 _]].
    rewrite Ht in H0. cbn in H0. lia.
  - unfold handleAnalyze. fold (trimmedText st). now rewrite Hf, Ht.
Qed.

Lemma requests_sent_iff_witness :
  filter is_request (handleAnalyze Sample.longEnough)
  = requests Sample.longEnough
  /\ filter is_request (handleAnalyze Sample.shortText) = [].
Proof.
  destruct (requests_sent_iff Sample.longEnough) as [_ [H|H]];
    [vm_compute in H; discriminate|].
  split; [exact H|]. vm_compute. reflexivity.
Defined.

End HandlerFacts.

(* ===================================================================== *)
(** * The score card at a result with two issues *)
(* ===================================================================== *)

Module ScoreFacts.
Import Num.

(** What [shr_fexp] returns fits in 53 bits. *)
Lemma shr_fexp_normal (m e : Z) (l : location) :
  0 <= m -> shr_m (fst (shr_fexp prec emax m e l)) < 2 ^ prec.
Proof.
  intro Hm. destruct (@NumFacts.shr_fexp_m m e l Hm) as [-> _].
  set (k := Z.max 0 _).
  assert (Hk : 0 <= k) by (unfold k; lia).
  destruct (Z.eq_dec m 0) as [->|Hne].
  - rewrite Z.div_0_l by (apply Z.pow_nonzero; lia). reflexivity.
  - destruct (@NumFacts.Zdigits2_bounds m ltac:(lia)) as [[_ Hu] Hd].
    assert (Hkd : Zdigits2 m - prec <= k)
      by (unfold k, fexp; lia).
    apply Z.div_lt_upper_bound; [apply Z.pow_pos_nonneg; lia|].
    rewrite <- Z.pow_add_r by (unfold prec; lia).
    eapply Z.lt_le_trans; [exact Hu|].
    apply Z.pow_le_mono_r; lia.
Qed.

Lemma binary_round_aux_normal (s : bool) (m e : Z) (l : location) :
  0 <= m -> normal (binary_round_aux prec emax s m e l).
Proof.
  intro Hm. unfold binary_round_aux.
  pose proof (@NumFacts.shr_fexp_nonneg m e l Hm) as H1.
  destruct (shr_fexp prec emax m e l) as [mrs' e']. cbn [fst] in H1.
  set (r := round_nearest_even (shr_m mrs') (loc_of_shr_record mrs')).
  assert (Hr : 0 <= r).
  { pose proof (NumFacts.round_nearest_even_bounds (shr_m mrs')
                  (loc_of_shr_record mrs')). fold r in H. lia. }
  pose proof (@shr_fexp_normal r e' loc_Exact Hr) as H2.
  destruct (shr_fexp prec emax r e' loc_Exact) as [mrs'' e''].
  cbn [fst] in H2.
  destruct (shr_m mrs'') as [|p|p]; cbn [normal]; auto.
  destruct (e'' <=? emax - prec); cbn [normal]; auto.
Qed.

Lemma binary_normalize_normal (z e : Z) (szero : bool) :
  normal (binary_normalize prec emax z e szero).
Proof.
  destruct z as [|p|p]; cbn [binary_normalize normal]; auto;
    unfold binary_round;
    destruct (shl_align p e _); apply binary_round_aux_normal; lia.
Qed.

(** Subtracting a number that is not negative from 100. *)
Lemma sub_100_normal (x : number) :
  signed false x -> normal (sub (ofZ 100) x).
Proof.
  rewrite ofZ_100.
  intros [->|[(mx & ex & ->)| ->]]; unfold sub; cbn [SFsub normal negb].
  - vm_compute. reflexivity.
  - apply binary_normalize_normal.
  - exact I.
Qed.

(** Clamping returns a bound or the number. *)
Lemma clamp_cases (y : number) :
  isNaN y = false ->
  Spec.clamp y zero (ofZ 100) = zero
  \/ Spec.clamp y zero (ofZ 100) = ofZ 100
  \/ Spec.clamp y zero (ofZ 100) = y.
Proof.
  intro Hy. rewrite ofZ_100. unfold Spec.clamp.
  set (h := S754_finite false 7036874417766400 (-46)).
  assert (Hmin : Math_min h y = h \/ Math_min h y = y).
  { destruct y as [s|s| |s m e]; try discriminate; unfold Math_min, h;
      match goal with
      | |- context [SFcompare ?a ?b] => destruct (SFcompare a b) as [[]|]
      end; auto. }
  destruct Hmin as [-> | ->]; [right; left; vm_compute; reflexivity|].
  destruct y as [s|s| |s m e]; try discriminate; unfold Math_max, zero;
    try destruct s; cbn; auto.
Qed.

(** The integer nearest to a number between 0 and 100. *)
Lemma Math_round_bounds (g : number) :
  normal g -> le zero g = true -> le g (ofZ 100) = true ->
  exists z, Math_round g = Some z /\ 0 <= z <= 100.
Proof.
  rewrite ofZ_100. unfold le, SFleb, zero.
  destruct g as [s|s| |s m e]; cbn [SFcompare normal Math_round];
    try discriminate.
  - intros _ _ _. exists 0. split; [reflexivity|lia].
  - destruct s; discriminate.
  - destruct s; [discriminate|]. intros Hm _.
    destruct (Z.compare_spec e (-46)) as [He|He|He]; [| |discriminate].
    + subst e. rewrite Pos.compare_cont_spec. cbn [Pos.switch_Eq].
      intro Hc.
      assert (Hz : Z.pos m <= 7036874417766400).
      { destruct (Pos.compare_spec m 7036874417766400) as [E|E|E];
          try discriminate.
        - rewrite E. apply Z.le_refl.
        - apply Z.lt_le_incl. exact E. }
      clear Hc. eexists. split; [reflexivity|].
      replace (2 ^ Z.pos 46) with 70368744177664 by reflexivity.
      split; [apply Z.div_pos; lia|].
      apply Z.lt_succ_r. apply Z.div_lt_upper_bound; lia.
    + intros _. destruct e as [|p|p]; try lia.
      eexists. split; [reflexivity|].
      assert (Hp : 2 ^ 47 <= 2 ^ Z.pos p) by (apply Z.pow_le_mono_r; lia).
      unfold prec in Hm.
      assert (H53 : (2 : Z) ^ 53 = 64 * 2 ^ 47) by reflexivity.
      assert (H47 : 0 < (2 : Z) ^ 47) by reflexivity.
      set (q := 2 ^ Z.pos p) in *.
      split; [apply Z.div_pos; lia|].
      apply Z.lt_succ_r. apply Z.div_lt_upper_bound; lia.
Qed.

Section Shown.
Context {host : Host}.

(** X26.  The card shows an integer between 0 and 100 as the score of
    every text of a length a String can have (below 2^53 code units),
    when no issue type is an inherited name. *)
Theorem shown_score_within_bounds (r : GrammarCheckResponse) (card : Card) :
  ScoreCard.GrammarScoreCard (Some r) = Some card ->
  Forall ScoreCard.weighable (issues r) ->
  Z.of_nat (List.length (text r)) < 2 ^ 53 ->
  exists z, shownScore card = Some z /\ 0 <= z <= 100.
Proof.
  intros Hcard Hall Hlen. cbn [ScoreCard.GrammarScoreCard] in Hcard.
  inversion Hcard; subst card; clear Hcard. cbn [shownScore].
  unfold ScoreCard.run. rewrite totalWords_wordCount.
  set (n := Num.ofZ (Z.of_nat (Spec.wordCount (text r)))).
  destruct (Num.gt n Num.zero) eqn:Hgt.
  - rewrite score_positive by exact Hgt. cbn [Ev.value snd].
    assert (Hfin : exists m e, n = S754_finite false m e).
    { pose proof (wordStarts_le_length (text r) true) as Hle.
      fold (Spec.wordCount (text r)) in Hle. unfold n.
      destruct (Spec.wordCount (text r)) as [|k] eqn:E; [discriminate|].
      apply NumFacts.ofZ_finite. lia. }
    destruct Hfin as (m & e & Hn). rewrite Hn.
    set (x := (ScoreCard.weightedErrors (issues r) / S754_finite false m e
               * Num.ofZ 100)%num).
    assert (Hx : signed false x).
    { unfold x. rewrite ofZ_100.
      apply NumFacts.mul_finite_signed, NumFacts.div_finite_signed.
      now apply weightedErrors_signed. }
    assert (Hy : isNaN (Num.ofZ 100 - x)%num = false)
      by (rewrite ofZ_100; now apply NumFacts.sub_finite_not_NaN).
    destruct (clamp_bounds _ Hy) as [Hlo Hhi].
    apply Math_round_bounds; [|exact Hlo|exact Hhi].
    destruct (clamp_cases _ Hy) as [-> |[-> | ->]];
      [exact I|vm_compute; reflexivity|now apply sub_100_normal].
  - rewrite score_not_positive by exact Hgt. cbn [Ev.value snd].
    exists 100. split; [vm_compute; reflexivity|lia].
Qed.

End Shown.

Lemma shown_score_within_bounds_witness :
  exists z,
    option_map shownScore
      (@ScoreCard.GrammarScoreCard asciiHost (Some Sample.overlapping))
    = Some (Some z)
    /\ 0 <= z <= 100.
Proof.
  destruct (@shown_score_within_bounds asciiHost Sample.overlapping
              {| grammarScore :=
                   Ev.value (@ScoreCard.run asciiHost Sample.overlapping);
                 shownScore :=
                   Num.Math_round
                     (Ev.value (@ScoreCard.run asciiHost
                                  Sample.overlapping));
                 errorCount := 2; warningCount := 0 |})
    as (z & Hz & Hb).
  - reflexivity.
  - repeat constructor; right; vm_compute; reflexivity.
  - vm_compute. reflexivity.
  - exists z. split; [|exact Hb]. cbn [ScoreCard.GrammarScoreCard option_map].
    f_equal. exact Hz.
Defined.


Lemma cardScore_bounds_witness :
  exists g, @ScoreCard.cardScore asciiHost Sample.overlapping = Some g
            /\ Num.le Num.zero g = true /\ Num.le g (Num.ofZ 100) = true.
Proof.
  apply (@cardScore_bounds asciiHost Sample.overlapping).
  - repeat constructor; right; vm_compute; reflexivity.
  - vm_compute. reflexivity.
Defined.

Lemma no_division_by_zero_witness :
  In (Num.ofZ 10)
     (Ev.divisors (@ScoreCard.score asciiHost (issues Sample.overlapping)
                     (Num.ofZ 10)))
  /\ Num.gt (Num.ofZ 10) Num.zero = true.
Proof.
  assert (H : In (Num.ofZ 10)
                (Ev.divisors (@ScoreCard.score asciiHost
                                (issues Sample.overlapping) (Num.ofZ 10))))
    by (vm_compute; left; reflexivity).
  split; [exact H|].
  exact (@no_division_by_zero asciiHost (issues Sample.overlapping)
           (Num.ofZ 10) (Num.ofZ 10) H).
Defined.

End ScoreFacts.
